(** * AutoReviewBot: the diff-chunk filter and the decision layer of [reviewer.py]

    A shallow embedding of [filter_excluded_files] and of the tail of [main]
    (src/reviewer.py), with the Python built-ins they call, followed by the
    properties of the specification that concern them.

    Python strings are sequences of Unicode code points; a code point is a
    natural number [N].  Exceptions are values of an error monad. *)

From Stdlib Require Import String Ascii.
From Stdlib Require Import List NArith ZArith Bool Lia.
Import Corelib.Init.Datatypes.
Import ListNotations.

(* ================================================================== *)
(** ** Python strings and the built-in methods the program uses        *)
(* ================================================================== *)

Module PyStr.

Definition char := N.
Definition str := list char.

(** An ASCII literal of the source, as a sequence of code points. *)
Definition lit (s : string) : str := map N_of_ascii (list_ascii_of_string s).

Definition LF : char := 10%N.
Definition CR : char := 13%N.

(** [Py_UNICODE_ISSPACE]: the code points [str.strip] and [str.split]
    treat as whitespace. *)
Definition whitespace_points : list N :=
  [9; 10; 11; 12; 13; 28; 29; 30; 31; 32; 133; 160; 5760;
   8232; 8233; 8239; 8287; 12288]%N.

Definition is_space (c : char) : bool :=
  existsb (N.eqb c) whitespace_points || (N.leb 8192 c && N.leb c 8202).

(** [Py_UNICODE_ISLINEBREAK]: the code points [str.splitlines] cuts at. *)
Definition linebreak_points : list N :=
  [10; 11; 12; 13; 28; 29; 30; 133; 8232; 8233]%N.

Definition is_linebreak (c : char) : bool := existsb (N.eqb c) linebreak_points.

Fixpoint str_eqb (a b : str) : bool :=
  match a, b with
  | [], [] => true
  | x :: a', y :: b' => N.eqb x y && str_eqb a' b'
  | _, _ => false
  end.

(** [not x] for a string or a list [x]: true when it is empty. *)
Definition is_empty {A : Type} (x : list A) : bool :=
  match x with [] => true | _ :: _ => false end.

(** [s.startswith(prefix)] *)
Fixpoint startswith (s prefix : str) {struct prefix} : bool :=
  match prefix with
  | [] => true
  | p :: prefix' =>
      match s with
      | [] => false
      | c :: s' => N.eqb c p && startswith s' prefix'
      end
  end.

(** [s.endswith(suffix)] for a string [suffix]: the last [len(suffix)]
    code points of [s] are compared with [suffix]. *)
Definition endswith (s suffix : str) : bool :=
  Nat.leb (length suffix) (length s)
  && str_eqb (skipn (length s - length suffix) s) suffix.

(** [needle in hay] *)
Fixpoint contains (needle hay : str) : bool :=
  startswith hay needle
  || match hay with
     | [] => false
     | _ :: rest => contains needle rest
     end.

(** [s.lstrip()], [s.rstrip()], [s.strip()] *)
Fixpoint lstrip (s : str) : str :=
  match s with
  | [] => []
  | c :: rest => if is_space c then lstrip rest else s
  end.

Definition rstrip (s : str) : str := rev (lstrip (rev s)).

Definition strip (s : str) : str := rstrip (lstrip s).

(** [s.split()]: maximal runs of non-whitespace; [cur] is the token being
    read. *)
Fixpoint split_from (cur : str) (s : str) : list str :=
  match s with
  | [] => match cur with [] => [] | _ :: _ => [cur] end
  | c :: rest =>
      if is_space c then
        match cur with
        | [] => split_from [] rest
        | _ :: _ => cur :: split_from [] rest
        end
      else split_from (cur ++ [c]) rest
  end.

Definition split (s : str) : list str := split_from [] s.

(** [s.splitlines(keepends=False)]: a line ends at a line break (CR LF
    counts as one); text after the last break is a line when it is not
    empty.  [cur] is the line being read. *)
Fixpoint splitlines_from (cur : str) (s : str) : list str :=
  match s with
  | [] => match cur with [] => [] | _ :: _ => [cur] end
  | c :: rest =>
      if is_linebreak c then
        match rest with
        | c2 :: rest2 =>
            if N.eqb c CR && N.eqb c2 LF
            then cur :: splitlines_from [] rest2
            else cur :: splitlines_from [] rest
        | [] => [cur]
        end
      else splitlines_from (cur ++ [c]) rest
  end.

Definition splitlines (s : str) : list str := splitlines_from [] s.

(** [sep.join(parts)] *)
Fixpoint join (sep : str) (parts : list str) : str :=
  match parts with
  | [] => []
  | p :: rest =>
      match rest with
      | [] => p
      | _ :: _ => p ++ sep ++ join sep rest
      end
  end.

End PyStr.
Import PyStr.

(* ================================================================== *)
(** ** Exceptions                                                      *)
(* ================================================================== *)

Inductive exn : Type := TypeError | IndexError.

Inductive result (A : Type) : Type :=
| Ok (a : A)
| Raise (e : exn).
Arguments Ok {A} a.
Arguments Raise {A} e.

Definition bind {A B : Type} (m : result A) (k : A -> result B) : result B :=
  match m with
  | Ok a => k a
  | Raise e => Raise e
  end.

Notation "x <- m ;; k" := (bind m (fun x => k))
  (at level 61, m at next level, right associativity).

(** [seq[i]] for a non-negative [i]. *)
Definition getitem {A : Type} (seq : list A) (i : nat) : result A :=
  match nth_error seq i with
  | Some a => Ok a
  | None => Raise IndexError
  end.

(** A [for] loop whose body may raise: the first exception ends it. *)
Fixpoint for_loop {S A : Type} (body : S -> A -> result S) (items : list A) (st : S)
  : result S :=
  match items with
  | [] => Ok st
  | x :: rest => st' <- body st x ;; for_loop body rest st'
  end.

(* ================================================================== *)
(** ** The objects a suffix list may hold                              *)
(* ================================================================== *)

(** [excluded_exts] is an untyped Python list.  [str.endswith] accepts a
    string or a tuple of strings and raises [TypeError] on anything else. *)
#[local] Set Warnings "-register-all".
Inductive pyobj : Type :=
| PyStr (s : str)
| PyTuple (items : list pyobj)
| PyInt (z : Z)
| PyNone.

Definition strs (suffixes : list str) : list pyobj := map PyStr suffixes.

Definition is_str (o : pyobj) : bool :=
  match o with PyStr _ => true | _ => false end.

(** [s.endswith(t)] for a tuple [t]: its items are tried in order, a match
    ends the walk, an item that is not a string raises. *)
Fixpoint endswith_tuple (s : str) (items : list pyobj) : result bool :=
  match items with
  | [] => Ok false
  | PyStr suffix :: rest =>
      if endswith s suffix then Ok true else endswith_tuple s rest
  | _ :: _ => Raise TypeError
  end.

(** [s.endswith(arg)] for an arbitrary object [arg]. *)
Definition str_endswith (s : str) (arg : pyobj) : result bool :=
  match arg with
  | PyStr suffix => Ok (endswith s suffix)
  | PyTuple items => endswith_tuple s items
  | PyInt _ | PyNone => Raise TypeError
  end.

(* ================================================================== *)
(** ** [filter_excluded_files] (reviewer.py, lines 96-145)             *)
(* ================================================================== *)

Definition diff_header_prefix : str := lit "diff --git ".

(** [line.startswith(diff_header_prefix)] *)
Definition is_header (line : str) : bool := startswith line diff_header_prefix.

(** The local variables of the scan. *)
Record scan_state : Type := mkState {
  kept_chunks : list str;
  current_chunk_lines : list str;
  skip_current_chunk : bool
}.

Definition initial_state : scan_state := mkState [] [] false.

(** [finalize_chunk()]: the value of [kept_chunks] after the call. *)
Definition finalize_chunk (st : scan_state) : list str :=
  if negb (skip_current_chunk st) && negb (is_empty (current_chunk_lines st))
  then kept_chunks st ++ current_chunk_lines st
  else kept_chunks st.

(** Lines 130-133: the loop over [excluded_exts]; [Ok true] is the [break]. *)
Fixpoint ext_loop (file_a file_b : str) (excluded_exts : list pyobj) : result bool :=
  match excluded_exts with
  | [] => Ok false
  | ext :: rest =>
      a <- str_endswith file_a ext ;;
      hit <- (if a then Ok true else str_endswith file_b ext) ;;
      if hit then Ok true else ext_loop file_a file_b rest
  end.

(** Lines 124-133: the value of [skip_current_chunk] a header line sets. *)
Definition header_skip (line : str) (excluded_exts : list pyobj) : result bool :=
  let parts := split line in
  if Nat.leb 4 (length parts) then
    p2 <- getitem parts 2 ;;
    let file_a := skipn 2 p2 in
    p3 <- getitem parts 3 ;;
    let file_b := skipn 2 p3 in
    ext_loop file_a file_b excluded_exts
  else Ok false.

(** Lines 117-139: the body of [for line in lines]. *)
Definition loop_body (excluded_exts : list pyobj) (st : scan_state) (line : str)
  : result scan_state :=
  if is_header line then
    let kept := finalize_chunk st in
    skip <- header_skip line excluded_exts ;;
    Ok (mkState kept [line] skip)
  else
    Ok (mkState (kept_chunks st) (current_chunk_lines st ++ [line])
                (skip_current_chunk st)).

(** Lines 104-142: the scan of the lines and the last [finalize_chunk()];
    the result is the final [kept_chunks]. *)
Definition scan_lines (lines : list str) (excluded_exts : list pyobj)
  : result (list str) :=
  st <- for_loop (loop_body excluded_exts) lines initial_state ;;
  Ok (finalize_chunk st).

Definition filter_excluded_files (diff : str) (excluded_exts : list pyobj)
  : result str :=
  if is_empty (strip diff) then Ok diff
  else
    let lines := splitlines diff in
    kept <- scan_lines lines excluded_exts ;;
    Ok (join [LF] kept ++ [LF]).

(* ================================================================== *)
(** ** The decision layer of [main] (reviewer.py, lines 225-244)       *)
(* ================================================================== *)

Definition EXCLUDED_EXTENSIONS : list pyobj :=
  strs (map lit [".pbxproj"; ".storyboard"; ".svg"; ".png"; ".jpg"; ".jpeg";
                 ".gif"; ".ico"]%string).

Section Decision.

(** The review invoker is an external collaborator: its answer to a diff
    and a context is what this run received. *)
Variable call_openai_api : str -> str -> str.

(** What [main] does once [diff_content] and [context] are set: the lines
    it prints and the code it passes to [sys.exit]. *)
Definition main_decide (diff_content context : str) : result (list str * Z) :=
  diff_content <- filter_excluded_files diff_content EXCLUDED_EXTENSIONS ;;
  if is_empty (strip diff_content) then
    Ok ([lit "No diff found (after filtering). Exiting."], 0%Z)
  else
    let feedback := call_openai_api diff_content context in
    let printed :=
      [lit "Analyzing with OpenAI, please wait...";
       LF :: lit "----- AI REVIEW START -----";
       feedback;
       lit "----- AI REVIEW END -----" ++ [LF]] in
    if contains (lit "APPROVED") feedback then
      Ok (printed ++ [lit "AI review result: APPROVED. Proceeding with the commit."], 0%Z)
    else
      Ok (printed ++ [lit "AI review result: Not approved. Aborting the commit."], 1%Z).

End Decision.

(* ================================================================== *)
(** ** The collaborators of [main]                                     *)
(* ================================================================== *)

(** [subprocess.check_output(cmd, text=True)]: the output of the command,
    the [CalledProcessError] that [get_local_diff] catches (with its text), or
    any other exception, which nothing catches. *)
Inductive proc_outcome : Type :=
| ProcOutput (out : str)
| CalledProcessError (e : str)
| ProcOtherError.

(** Lines 88-90, [requests.get] with [timeout=30], [raise_for_status] and
    [resp.text]: the text of the response, or an [Exception] with its text. *)
Inductive http_outcome : Type :=
| HttpText (body : str)
| HttpException (e : str).

(** Lines 176-186 up to [.content]: the content of the first choice, which
    may be [None], or an [Exception] with its text. *)
Inductive chat_outcome : Type :=
| ChatContent (content : option str)
| ChatException (e : str).

(** What the program reaches outside itself.  [OpenAI] is the constructor of
    the client, given the API key: [None] when it raises, else the
    [chat.completions.create] of the client, called with the model
    [gpt-4o-mini], [max_tokens=2000], [temperature=0.5] and the system and
    user messages.  [unicode_decimal] is the table behind the [\d] of [re]. *)
Record world : Type := mkWorld {
  check_output : list str -> proc_outcome;
  getenv : str -> option str;
  requests_get : str -> list (str * str) -> http_outcome;
  OpenAI : option str -> option (str -> str -> chat_outcome);
  unicode_decimal : char -> bool
}.

Inductive stream : Type := Stdout | Stderr.

(** A run: what was printed, and the value returned, [None] when an
    exception left the function. *)
Definition io (A : Type) : Type := list (stream * str) * option A.

Definition io_ret {A : Type} (a : A) : io A := ([], Some a).

Definition io_raise {A : Type} : io A := ([], None).

Definition io_print (to : stream) (line : str) : io unit := ([(to, line)], Some tt).

Definition io_bind {A B : Type} (m : io A) (k : A -> io B) : io B :=
  match snd m with
  | None => (fst m, None)
  | Some a => (fst m ++ fst (k a), snd (k a))
  end.

Notation "x <~ m ;; k" := (io_bind m (fun x => k))
  (at level 61, m at next level, right associativity).

Definition printed {A : Type} (m : io A) : list (stream * str) := fst m.
Definition returned {A : Type} (m : io A) : option A := snd m.

(* ================================================================== *)
(** ** [get_local_diff] (reviewer.py, lines 46-60)                     *)
(* ================================================================== *)

Definition git_diff_cmd (only_staged : bool) : list str :=
  [lit "git"; lit "diff"] ++ (if only_staged then [lit "--staged"] else []).

Definition get_local_diff (w : world) (only_staged : bool) : io str :=
  let cmd := git_diff_cmd only_staged in
  match check_output w cmd with
  | ProcOutput diff_output => io_ret diff_output
  | CalledProcessError e =>
      _ <~ io_print Stderr (lit "Error running " ++ join (lit " ") cmd ++ lit ": " ++ e) ;;
      io_ret []
  | ProcOtherError => io_raise
  end.

(* ================================================================== *)
(** ** [get_github_pr_diff] (reviewer.py, lines 62-93)                 *)
(* ================================================================== *)

(** The longest prefix of [s] whose code points satisfy [f], and the rest. *)
Fixpoint span (f : char -> bool) (s : str) : str * str :=
  match s with
  | [] => ([], [])
  | c :: rest =>
      if f c then let (run, tail) := span f rest in (c :: run, tail)
      else ([], s)
  end.

(** [s] without its prefix [p], when it has it. *)
Fixpoint strip_prefix (p s : str) {struct p} : option str :=
  match p with
  | [] => Some s
  | x :: p' =>
      match s with
      | [] => None
      | c :: s' => if N.eqb c x then strip_prefix p' s' else None
      end
  end.

(** [[^/]] *)
Definition not_slash (c : char) : bool := negb (N.eqb c 47).

(** The pattern [github\.com/([^/]+)/([^/]+)/pull/(\d+)] matched at the
    start of [s]: the three groups.  A greedy [[^/]+] that a slash must
    follow takes the whole run of non-slashes; the closing [\d+] takes the
    whole run of digits. *)
Definition match_pr_at (digit : char -> bool) (s : str) : option (str * str * str) :=
  match strip_prefix (lit "github.com/") s with
  | None => None
  | Some s1 =>
      let (owner, s2) := span not_slash s1 in
      if is_empty owner then None else
      match strip_prefix (lit "/") s2 with
      | None => None
      | Some s3 =>
          let (repo, s4) := span not_slash s3 in
          if is_empty repo then None else
          match strip_prefix (lit "/pull/") s4 with
          | None => None
          | Some s5 =>
              let (pr, _) := span digit s5 in
              if is_empty pr then None else Some (owner, repo, pr)
          end
      end
  end.

(** [re.search(pattern, url)] then [match.groups()]: the match at the
    leftmost position that has one. *)
Fixpoint re_search_pr (digit : char -> bool) (s : str) : option (str * str * str) :=
  match match_pr_at digit s with
  | Some groups => Some groups
  | None =>
      match s with
      | [] => None
      | _ :: rest => re_search_pr digit rest
      end
  end.

(** Line 78. *)
Definition pr_api_url (owner repo pr : str) : str :=
  lit "https://api.github.com/repos/" ++ owner ++ lit "/" ++ repo
  ++ lit "/pulls/" ++ pr.

(** Lines 80-85: the request headers, in insertion order. *)
Definition pr_headers (w : world) : list (str * str) :=
  (lit "Accept", lit "application/vnd.github.v3.diff")
  :: match getenv w (lit "GITHUB_TOKEN") with
     | Some (c :: token) => [(lit "Authorization", lit "token " ++ c :: token)]
     | Some [] | None => []
     end.

Definition get_github_pr_diff (w : world) (url : str) : io str :=
  match re_search_pr (unicode_decimal w) url with
  | None =>
      _ <~ io_print Stdout (lit "Invalid PR URL: " ++ url) ;;
      io_ret []
  | Some (owner, repo, pr) =>
      let api_url := pr_api_url owner repo pr in
      let headers := pr_headers w in
      match requests_get w api_url headers with
      | HttpText body => io_ret body
      | HttpException e =>
          _ <~ io_print Stdout
                 (lit "Error fetching PR diff from " ++ api_url ++ lit ": " ++ e) ;;
          io_ret []
      end
  end.

(* ================================================================== *)
(** ** [call_openai_api] (reviewer.py, lines 148-189)                  *)
(* ================================================================== *)

Definition system_prompt : str :=
  lit "You are an AI code reviewer. You will receive a Git diff "
  ++ lit "and should provide feedback on potential issues, typos, improvements, "
  ++ lit "keep it short by focusing on potential errors that could cause production issues. "
  ++ lit "if nothing major is preventing the diff to be commit, then just reply with only one word: 'APPROVED'.".

Definition user_prompt (diff_content context : str) : str :=
  lit "Context: " ++ context ++ [LF]
  ++ lit "Here is the diff:" ++ [LF; LF]
  ++ diff_content ++ [LF; LF]
  ++ lit "Please provide your review with suggestions.".

(** The text of the [AttributeError] of [None.strip()]. *)
Definition none_has_no_strip : str := lit "'NoneType' object has no attribute 'strip'".

(** Lines 175-189: what the [try] statement returns. *)
Definition chat_feedback (answer : chat_outcome) : str :=
  match answer with
  | ChatContent (Some content) => strip content
  | ChatContent None => lit "Error calling OpenAI API: " ++ none_has_no_strip
  | ChatException e => lit "Error calling OpenAI API: " ++ e
  end.

Definition call_openai_api (w : world) (diff_content context : str) : io str :=
  if is_empty (strip diff_content) then io_ret (lit "No diff content provided.")
  else
    match OpenAI w (getenv w (lit "OPENAI_API_KEY")) with
    | None => io_raise
    | Some create =>
        io_ret (chat_feedback (create system_prompt (user_prompt diff_content context)))
    end.

(* ================================================================== *)
(** ** [main] (reviewer.py, lines 192-244)                             *)
(* ================================================================== *)

(** The result of [parser.parse_args()]. *)
Record cli_args : Type := mkArgs {
  url : option str;
  pre_commit : bool
}.

(** Lines 209-220: the diff and the context. *)
Definition acquire_diff (w : world) (args : cli_args) : io (str * str) :=
  match url args with
  | Some (c :: u) =>
      diff_content <~ get_github_pr_diff w (c :: u) ;;
      io_ret (diff_content, lit "GitHub PR URL: " ++ c :: u)
  | Some [] | None =>
      if pre_commit args then
        diff_content <~ get_local_diff w true ;;
        io_ret (diff_content, lit "Staged changes (pre-commit)")
      else
        diff_content <~ get_local_diff w false ;;
        io_ret (diff_content, lit "Unstaged changes (local working directory)")
  end.

(** Lines 225-244: the filter, the review and the exit code. *)
Definition review_and_exit (w : world) (diff_content context : str) : io Z :=
  match filter_excluded_files diff_content EXCLUDED_EXTENSIONS with
  | Raise _ => io_raise
  | Ok diff_content =>
      if is_empty (strip diff_content) then
        _ <~ io_print Stdout (lit "No diff found (after filtering). Exiting.") ;;
        io_ret 0%Z
      else
        _ <~ io_print Stdout (lit "Analyzing with OpenAI, please wait...") ;;
        feedback <~ call_openai_api w diff_content context ;;
        _ <~ io_print Stdout (LF :: lit "----- AI REVIEW START -----") ;;
        _ <~ io_print Stdout feedback ;;
        _ <~ io_print Stdout (lit "----- AI REVIEW END -----" ++ [LF]) ;;
        if contains (lit "APPROVED") feedback then
          _ <~ io_print Stdout
                 (lit "AI review result: APPROVED. Proceeding with the commit.") ;;
          io_ret 0%Z
        else
          _ <~ io_print Stdout
                 (lit "AI review result: Not approved. Aborting the commit.") ;;
          io_ret 1%Z
  end.

Definition main (w : world) (args : cli_args) : io Z :=
  input <~ acquire_diff w args ;;
  review_and_exit w (fst input) (snd input).

(** A subsequence: some elements left out, the order kept. *)
Inductive subseq {A : Type} : list A -> list A -> Prop :=
| subseq_nil : subseq [] []
| subseq_skip (x : A) (l1 l2 : list A) : subseq l1 l2 -> subseq l1 (x :: l2)
| subseq_take (x : A) (l1 l2 : list A) : subseq l1 l2 -> subseq (x :: l1) (x :: l2).

(** The pattern of line 72 read as a relation: [s] begins with a match whose
    groups are [owner], [repo] and [pr], and [tail] follows it. *)
Definition pr_match (digit : char -> bool) (s owner repo pr tail : str) : Prop :=
  s = lit "github.com/" ++ owner ++ lit "/" ++ repo ++ lit "/pull/" ++ pr ++ tail /\
  owner <> [] /\ forallb not_slash owner = true /\
  repo <> [] /\ forallb not_slash repo = true /\
  pr <> [] /\ forallb digit pr = true.

(** What follows a greedy run of digits: nothing, or a code point that is
    no digit. *)
Definition stops (digit : char -> bool) (tail : str) : Prop :=
  match tail with [] => True | c :: _ => digit c = false end.

(** The strings of [EXCLUDED_EXTENSIONS]. *)
Definition EXCLUDED_SUFFIXES : list str :=
  map lit [".pbxproj"; ".storyboard"; ".svg"; ".png"; ".jpg"; ".jpeg";
           ".gif"; ".ico"]%string.

(** The diff source gave no text: the URL is refused, the request failed, or
    [git diff] failed. *)
Definition diff_source_fails (w : world) (args : cli_args) : Prop :=
  match url args with
  | Some (c :: u) =>
      match re_search_pr (unicode_decimal w) (c :: u) with
      | None => True
      | Some (owner, repo, pr) =>
          exists e, requests_get w (pr_api_url owner repo pr) (pr_headers w)
                    = HttpException e
      end
  | Some [] | None =>
      exists e, check_output w (git_diff_cmd (pre_commit args)) = CalledProcessError e
  end.


(** The exit code that the outcome of the reviewer leads to. *)
Definition exit_code_of (answer : chat_outcome) : Z :=
  match answer with
  | ChatContent (Some content) => if contains (lit "APPROVED") content then 0 else 1
  | ChatContent None => 1
  | ChatException e => if contains (lit "APPROVED") e then 0 else 1
  end.

(** The reviewer as [main_decide] takes it, for a client that was built. *)
Definition reviewer_of (create : str -> str -> chat_outcome) (diff_content context : str)
  : str :=
  chat_feedback (create system_prompt (user_prompt diff_content context)).

(** The digits of ASCII, which every [unicode_decimal] table holds. *)
Definition ascii_digit (c : char) : bool := N.leb 48 c && N.leb c 57.

(** A world for running the definitions: [git diff] prints [staged] with
    [--staged] and fails without; the PR request fails; the reviewer answers
    [verdict]. *)
Definition sample_world (staged verdict : str) : world :=
  mkWorld
    (fun cmd => if Nat.eqb (length cmd) 3 then ProcOutput staged
                else CalledProcessError (lit "exit status 128"))
    (fun _ => None)
    (fun _ _ => HttpException (lit "404"))
    (fun _ => Some (fun _ _ => ChatContent (Some verdict)))
    ascii_digit.

(* ================================================================== *)
(** ** The data model of the specification                             *)
(* ================================================================== *)

(** The lines before the first header line, and the file chunks: each chunk
    begins with a header line and runs to the next header line or to the end
    of the text. *)
Fixpoint segment (lines : list str) : list str * list (list str) :=
  match lines with
  | [] => ([], [])
  | l :: rest =>
      let (pre, chunks) := segment rest in
      if is_header l then ([], (l :: pre) :: chunks) else (l :: pre, chunks)
  end.

Definition preamble (lines : list str) : list str := fst (segment lines).
Definition chunks_of (lines : list str) : list (list str) := snd (segment lines).

(** Lines none of which is a header line. *)
Definition plain (lines : list str) : Prop := Forall (fun l => is_header l = false) lines.

(** A well-formed chunk: a header line followed by lines that are not. *)
Definition is_chunk (c : list str) : Prop :=
  exists h body, c = h :: body /\ is_header h = true
                 /\ Forall (fun l => is_header l = false) body.

(** The exclusion policy in the words of the specification: the header has
    at least four tokens, and token 3 or 4 without its first two characters
    ends with one of the suffixes. *)
Definition excluded_by_policy (header : str) (suffixes : list str) : bool :=
  match split header with
  | _ :: _ :: tok3 :: tok4 :: _ =>
      existsb (fun suffix => endswith (skipn 2 tok3) suffix
                             || endswith (skipn 2 tok4) suffix) suffixes
  | _ => false
  end.

Definition chunk_header (c : list str) : str := hd [] c.

Definition chunk_kept (suffixes : list str) (c : list str) : bool :=
  negb (excluded_by_policy (chunk_header c) suffixes).

(** The filtered diff text in the words of the specification. *)
Definition filtered_text (kept : list (list str)) : str :=
  join [LF] (concat kept) ++ [LF].

(** The lines a chunk-wise filter keeps: the lines in front of the first
    header line, then the chunks that are not excluded, whole and in
    order. *)
Definition kept_lines (suffixes : list str) (lines : list str) : list str :=
  preamble lines ++ concat (filter (chunk_kept suffixes) (chunks_of lines)).

(** The same walk over the chunks for an arbitrary suffix list, whose
    suffix test may raise. *)
Fixpoint keep_chunks (excluded_exts : list pyobj) (chunks : list (list str))
  : result (list str) :=
  match chunks with
  | [] => Ok []
  | c :: rest =>
      skip <- header_skip (chunk_header c) excluded_exts ;;
      kept <- keep_chunks excluded_exts rest ;;
      Ok (if skip then kept else c ++ kept)
  end.

(** A line that holds no line break. *)
Definition break_free (l : str) : Prop := Forall (fun c => is_linebreak c = false) l.

(** Lines written out with a newline after each. *)
Definition terminated (lines : list str) : str :=
  concat (map (fun l => l ++ [LF]) lines).

(** An entry of a suffix list that [str.endswith] refuses outright. *)
Definition refused (o : pyobj) : bool :=
  match o with PyInt _ | PyNone => true | PyStr _ | PyTuple _ => false end.

(** A list of lines that is empty or begins with a header line. *)
Definition starts_chunk (lines : list str) : Prop :=
  match lines with [] => True | l :: _ => is_header l = true end.

(** The condition under which the specification drops a chunk, on its
    header line. *)
Definition dropped_by (suffixes : list str) (header : str) : Prop :=
  4 <= length (split header) /\
  exists suffix, In suffix suffixes /\
    ((exists front, skipn 2 (nth 2 (split header) []) = front ++ suffix) \/
     (exists front, skipn 2 (nth 3 (split header) []) = front ++ suffix)).

(** A computation that ends in an exception. *)
Definition raises {A : Type} (r : result A) : Prop := exists e, r = Raise e.

(** A header line whose suffix test raises. *)
Definition failing_header (exts : list pyobj) (l : str) : Prop :=
  is_header l = true /\ raises (header_skip l exts).

(* ================================================================== *)
(** ** Sample diffs                                                    *)
(* ================================================================== *)

(** A text given by its lines, each closed by a newline. *)
Definition text (lines : list string) : str := terminated (map lit lines).

(** Scenario 2 of the specification. *)
Definition diff_go_svg : str :=
  text ["diff --git a/main.go b/main.go"; "+x=1";
        "diff --git a/asset.svg b/asset.svg"; "+<svg/>"]%string.

(** A note in front of the first header line. *)
Definition diff_with_note : str :=
  text ["note"; "diff --git a/logo.png b/logo.png"; "+1";
        "diff --git a/main.go b/main.go"; "+x=1"]%string.

(** Scenario 3 of the specification: a body line that quotes a header. *)
Definition diff_quoting : str :=
  text ["diff --git a/readme.md b/readme.md";
        "+run diff --git a/logo.png b/logo.png";
        "+done"]%string.

(** A diff that touches only images. *)
Definition diff_images : str :=
  text ["diff --git a/logo.png b/logo.png"; "+1";
        "diff --git a/icon.svg b/icon.svg"; "+2"]%string.

(** A diff of one source file. *)
Definition diff_source : str :=
  text ["diff --git a/main.go b/main.go"; "+x=1"]%string.

(** A header cut short, then a full one. *)
Definition diff_truncated : str :=
  text ["diff --git a/logo.png"; "+1";
        "diff --git a/main.go b/main.go"; "+x=1"]%string.

(* ================================================================== *)
(** ** Facts about the built-ins                                       *)
(* ================================================================== *)

Section BuiltinFacts.

Lemma str_eqb_eq (a b : str) : str_eqb a b = true <-> a = b.
Proof.
  revert b; induction a as [|x a IH]; intros [|y b]; simpl; split; intro H;
    try reflexivity; try discriminate.
  - apply andb_true_iff in H as [Hxy Hab].
    apply N.eqb_eq in Hxy. apply IH in Hab. congruence.
  - injection H as -> ->. rewrite N.eqb_refl. simpl. now apply IH.
Qed.

Lemma startswith_iff (s prefix : str) :
  startswith s prefix = true <-> exists rest, s = prefix ++ rest.
Proof.
  revert s; induction prefix as [|p prefix IH]; intros s; simpl.
  - split; [intros _; now exists s | reflexivity].
  - destruct s as [|c s].
    + split; [discriminate | intros [rest H]; discriminate].
    + rewrite andb_true_iff, N.eqb_eq, IH. split.
      * intros [-> [rest ->]]. now exists rest.
      * intros [rest H]. injection H as -> ->. split; [reflexivity | now exists rest].
Qed.

Lemma startswith_app (prefix rest : str) : startswith (prefix ++ rest) prefix = true.
Proof. apply startswith_iff. now exists rest. Qed.

Lemma endswith_iff (s suffix : str) :
  endswith s suffix = true <-> exists front, s = front ++ suffix.
Proof.
  unfold endswith. rewrite andb_true_iff, Nat.leb_le, str_eqb_eq. split.
  - intros [_ H]. exists (firstn (length s - length suffix) s).
    pose proof (firstn_skipn (length s - length suffix) s) as E.
    rewrite H in E. now symmetry.
  - intros [front ->]. rewrite length_app. split; [lia|].
    replace (length front + length suffix - length suffix) with (length front) by lia.
    rewrite skipn_app, skipn_all, Nat.sub_diag. reflexivity.
Qed.

Lemma endswith_empty (s : str) : endswith s [] = true.
Proof. apply endswith_iff. exists s. now rewrite app_nil_r. Qed.

Lemma contains_unfold (needle hay : str) :
  contains needle hay =
  startswith hay needle
  || match hay with [] => false | _ :: rest => contains needle rest end.
Proof. destruct hay; reflexivity. Qed.

Lemma contains_iff (needle hay : str) :
  contains needle hay = true <-> exists pre post, hay = pre ++ needle ++ post.
Proof.
  split.
  - induction hay as [|c hay IH]; rewrite contains_unfold, orb_true_iff.
    + intros [H | H]; [|discriminate].
      apply startswith_iff in H as [rest ->]. now exists [], rest.
    + intros [H | H].
      * apply startswith_iff in H as [rest ->]. now exists [], rest.
      * destruct (IH H) as (pre & post & ->). now exists (c :: pre), post.
  - intros (pre & post & ->). induction pre as [|c pre IH].
    + rewrite contains_unfold. simpl. now rewrite startswith_app.
    + change ((c :: pre) ++ needle ++ post) with (c :: (pre ++ needle ++ post)).
      rewrite contains_unfold, IH. apply orb_true_r.
Qed.

(** *** [strip] *)

Lemma lstrip_head (s : str) :
  lstrip s = [] \/ exists c rest, lstrip s = c :: rest /\ is_space c = false.
Proof.
  induction s as [|c s IH]; simpl; [now left|].
  destruct (is_space c) eqn:E; [exact IH | right; now exists c, s].
Qed.

Lemma lstrip_nil_iff (s : str) : lstrip s = [] <-> forallb is_space s = true.
Proof.
  induction s as [|c s IH]; simpl; [tauto|].
  destruct (is_space c); simpl; [exact IH | split; discriminate].
Qed.

Lemma forallb_rev {A : Type} (f : A -> bool) (l : list A) :
  forallb f (rev l) = forallb f l.
Proof.
  induction l as [|a l IH]; simpl; [reflexivity|].
  rewrite forallb_app, IH. simpl. rewrite andb_true_r. apply andb_comm.
Qed.

Lemma rev_nil_iff {A : Type} (l : list A) : rev l = [] <-> l = [].
Proof.
  split; [|now intros ->]. intro H.
  apply (f_equal (@rev A)) in H. now rewrite rev_involutive in H.
Qed.

(** [not s.strip()] holds exactly when every code point of [s] is
    whitespace. *)
Lemma strip_blank (s : str) : is_empty (strip s) = forallb is_space s.
Proof.
  destruct (forallb is_space s) eqn:E.
  - apply lstrip_nil_iff in E. unfold strip, rstrip. now rewrite E.
  - destruct (strip s) eqn:S; [|reflexivity]. exfalso.
    unfold strip, rstrip in S.
    apply rev_nil_iff, lstrip_nil_iff in S. rewrite forallb_rev in S.
    destruct (lstrip_head s) as [H | (c & rest & H & Hc)].
    + apply lstrip_nil_iff in H. congruence.
    + rewrite H in S. simpl in S. rewrite Hc in S. discriminate.
Qed.

Lemma strip_nil_iff (s : str) : strip s = [] <-> forallb is_space s = true.
Proof.
  rewrite <- strip_blank. destruct (strip s); simpl; split; congruence.
Qed.

End BuiltinFacts.

(** *** [splitlines] and [join] *)

Section LineFacts.

(** Induction on a text two code points at a time, as [splitlines] reads
    CR LF. *)
Lemma str_pair_ind (P : str -> Prop) :
  P [] -> (forall c, P [c]) ->
  (forall c c2 s, P s -> P (c2 :: s) -> P (c :: c2 :: s)) ->
  forall s, P s.
Proof.
  intros H0 H1 H2 s.
  assert (H : P s /\ forall c, P (c :: s)); [|exact (proj1 H)].
  induction s as [|c2 s [IHa IHb]]; split; auto.
Qed.

Lemma splitlines_from_break_free (s cur : str) :
  break_free cur -> Forall break_free (splitlines_from cur s).
Proof.
  revert cur. induction s as [| c | c c2 s IH1 IH2] using str_pair_ind; intros cur Hcur.
  - destruct cur; simpl; auto.
  - simpl. destruct (is_linebreak c) eqn:E; [auto|].
    assert (H : break_free (cur ++ [c])) by (apply Forall_app; auto).
    destruct (cur ++ [c]); auto.
  - change (splitlines_from cur (c :: c2 :: s)) with
      (if is_linebreak c
       then if N.eqb c CR && N.eqb c2 LF
            then cur :: splitlines_from [] s
            else cur :: splitlines_from [] (c2 :: s)
       else splitlines_from (cur ++ [c]) (c2 :: s)).
    destruct (is_linebreak c) eqn:E.
    + destruct (N.eqb c CR && N.eqb c2 LF); constructor; auto;
        [apply IH1 | apply IH2]; constructor.
    + apply IH2. apply Forall_app; auto.
Qed.

Lemma splitlines_break_free (s : str) : Forall break_free (splitlines s).
Proof. apply splitlines_from_break_free. constructor. Qed.

(** Every code point of a line is a code point of the text. *)
Lemma splitlines_from_in (s cur l : str) (c : char) :
  In l (splitlines_from cur s) -> In c l -> In c cur \/ In c s.
Proof.
  revert cur. induction s as [| c1 | c1 c2 s IH1 IH2] using str_pair_ind; intros cur Hl Hc.
  - destruct cur; simpl in Hl; [tauto|]. destruct Hl as [<- | []]. now left.
  - simpl in Hl. destruct (is_linebreak c1).
    + destruct Hl as [<- | []]. now left.
    + destruct (cur ++ [c1]) eqn:E; simpl in Hl; [tauto|].
      destruct Hl as [<- | []]. rewrite <- E in Hc.
      apply in_app_or in Hc. tauto.
  - change (splitlines_from cur (c1 :: c2 :: s)) with
      (if is_linebreak c1
       then if N.eqb c1 CR && N.eqb c2 LF
            then cur :: splitlines_from [] s
            else cur :: splitlines_from [] (c2 :: s)
       else splitlines_from (cur ++ [c1]) (c2 :: s)) in Hl.
    destruct (is_linebreak c1).
    + destruct (N.eqb c1 CR && N.eqb c2 LF); destruct Hl as [<- | Hl]; auto.
      * destruct (IH1 _ Hl Hc) as [[] | H]. right. now do 2 right.
      * destruct (IH2 _ Hl Hc) as [[] | H]. right. now right.
    + destruct (IH2 _ Hl Hc) as [H | H].
      * apply in_app_or in H as [H | [<- | []]]; [now left | right; now left].
      * right. now right.
Qed.

Lemma splitlines_in (s l : str) (c : char) :
  In l (splitlines s) -> In c l -> In c s.
Proof. intros Hl Hc. destruct (splitlines_from_in _ _ _ _ Hl Hc) as [[] | H]. exact H. Qed.

(** A line that holds no line break, closed by a newline, is read back
    as it is. *)
Lemma splitlines_from_line (l rest cur : str) :
  break_free l ->
  splitlines_from cur (l ++ LF :: rest) = (cur ++ l) :: splitlines_from [] rest.
Proof.
  intros Hl. revert cur. induction Hl as [|c l Hc Hl IH]; intros cur.
  - rewrite app_nil_r. destruct rest as [|c2 rest2]; reflexivity.
  - simpl. rewrite Hc, IH, <- app_assoc. reflexivity.
Qed.

Lemma splitlines_terminated (lines : list str) :
  Forall break_free lines -> splitlines (terminated lines) = lines.
Proof.
  unfold splitlines, terminated. induction 1 as [|l lines Hl Hls IH]; [reflexivity|].
  simpl. rewrite <- app_assoc. simpl. rewrite splitlines_from_line by assumption.
  now rewrite IH.
Qed.

Lemma join_terminated (lines : list str) :
  lines <> [] -> join [LF] lines ++ [LF] = terminated lines.
Proof.
  unfold terminated. induction lines as [|l lines IH]; [congruence|]. intros _.
  destruct lines as [|l2 lines].
  - simpl. now rewrite app_nil_r.
  - change (join [LF] (l :: l2 :: lines)) with (l ++ [LF] ++ join [LF] (l2 :: lines)).
    assert (E : l2 :: lines <> []) by discriminate. specialize (IH E).
    change (concat (map (fun l => l ++ [LF]) (l :: l2 :: lines))) with
      ((l ++ [LF]) ++ concat (map (fun l => l ++ [LF]) (l2 :: lines))).
    rewrite <- IH, <- !app_assoc. reflexivity.
Qed.

End LineFacts.

(* ================================================================== *)
(** ** Chunks                                                          *)
(* ================================================================== *)

Section ChunkFacts.

Lemma segment_cons (l : str) (rest : list str) :
  segment (l :: rest) =
  if is_header l then ([], (l :: preamble rest) :: chunks_of rest)
  else (l :: preamble rest, chunks_of rest).
Proof. unfold preamble, chunks_of. simpl. now destruct (segment rest). Qed.

Lemma segment_partition (lines : list str) :
  preamble lines ++ concat (chunks_of lines) = lines.
Proof.
  induction lines as [|l rest IH]; [reflexivity|].
  unfold preamble, chunks_of. rewrite segment_cons.
  destruct (is_header l); simpl; now rewrite IH.
Qed.

Lemma preamble_plain (lines : list str) : plain (preamble lines).
Proof.
  induction lines as [|l rest IH]; [constructor|].
  unfold preamble. rewrite segment_cons.
  destruct (is_header l) eqn:E; simpl; constructor; auto.
Qed.

Lemma chunks_well_formed (lines : list str) : Forall is_chunk (chunks_of lines).
Proof.
  induction lines as [|l rest IH]; [constructor|].
  unfold chunks_of. rewrite segment_cons.
  destruct (is_header l) eqn:E; simpl; [|exact IH].
  constructor; [|exact IH]. exists l, (preamble rest).
  split; [reflexivity | split; [exact E | apply preamble_plain]].
Qed.

Lemma segment_plain (lines : list str) : plain lines -> segment lines = (lines, []).
Proof.
  induction 1 as [|l rest Hl _ IH]; [reflexivity|].
  rewrite segment_cons, Hl. unfold preamble, chunks_of. now rewrite IH.
Qed.

Lemma segment_plain_app (pre rest : list str) :
  plain pre -> segment (pre ++ rest) = (pre ++ preamble rest, chunks_of rest).
Proof.
  induction 1 as [|l pre Hl _ IH]; simpl app.
  - unfold preamble, chunks_of. now destruct (segment rest).
  - rewrite segment_cons, Hl. unfold preamble, chunks_of. now rewrite IH.
Qed.

Lemma segment_chunks (chunks : list (list str)) :
  Forall is_chunk chunks -> segment (concat chunks) = ([], chunks).
Proof.
  induction 1 as [|c chunks (h & body & -> & Hh & Hbody) _ IH]; [reflexivity|].
  change (concat ((h :: body) :: chunks)) with (h :: (body ++ concat chunks)).
  rewrite segment_cons, Hh. unfold preamble, chunks_of.
  rewrite (segment_plain_app body (concat chunks) Hbody).
  unfold preamble, chunks_of. rewrite IH. simpl. now rewrite app_nil_r.
Qed.

(** The segmentation is the only one into plain lines and chunks. *)
Lemma segment_unique (pre : list str) (chunks : list (list str)) :
  plain pre -> Forall is_chunk chunks ->
  segment (pre ++ concat chunks) = (pre, chunks).
Proof.
  intros Hpre Hcs. rewrite (segment_plain_app pre (concat chunks) Hpre).
  unfold preamble, chunks_of. rewrite (segment_chunks chunks Hcs).
  simpl. now rewrite app_nil_r.
Qed.

Lemma preamble_of_header (l : str) (rest : list str) :
  is_header l = true -> preamble (l :: rest) = [].
Proof. intros H. unfold preamble. now rewrite segment_cons, H. Qed.

End ChunkFacts.

(* ================================================================== *)
(** ** The scan computes the chunk-wise filter                         *)
(* ================================================================== *)

Section ScanFacts.

Variable excluded_exts : list pyobj.

Lemma finalize_fresh (pre : list str) : finalize_chunk (mkState [] pre false) = pre.
Proof. unfold finalize_chunk. simpl. now destruct pre. Qed.

(** The loop, from any state, against the segmentation of the lines left. *)
Lemma scan_from (lines : list str) : forall st : scan_state,
  (st' <- for_loop (loop_body excluded_exts) lines st ;; Ok (finalize_chunk st')) =
  (kept <- keep_chunks excluded_exts (chunks_of lines) ;;
   Ok (finalize_chunk (mkState (kept_chunks st)
                               (current_chunk_lines st ++ preamble lines)
                               (skip_current_chunk st)) ++ kept)).
Proof.
  induction lines as [|l rest IH]; intros st.
  - simpl. rewrite !app_nil_r. now destruct st.
  - unfold preamble, chunks_of. rewrite segment_cons.
    simpl for_loop. unfold loop_body at 1.
    destruct (is_header l) eqn:Hl; simpl fst; simpl snd.
    + simpl keep_chunks. unfold chunk_header. simpl hd.
      destruct (header_skip l excluded_exts) as [skip|e]; [|reflexivity].
      simpl bind at 2. cbv beta. rewrite IH. simpl.
      destruct (keep_chunks excluded_exts (chunks_of rest)) as [kept|e]; [|reflexivity].
      simpl. rewrite app_nil_r. f_equal.
      replace (mkState (kept_chunks st) (current_chunk_lines st) (skip_current_chunk st))
        with st by now destruct st.
      unfold finalize_chunk at 1. simpl.
      destruct skip; simpl; [reflexivity | now rewrite <- app_assoc].
    + simpl bind at 2. cbv beta. rewrite IH. simpl.
      now rewrite <- app_assoc.
Qed.

Lemma scan_lines_chunks (lines : list str) :
  scan_lines lines excluded_exts =
  (kept <- keep_chunks excluded_exts (chunks_of lines) ;; Ok (preamble lines ++ kept)).
Proof.
  unfold scan_lines. rewrite scan_from. simpl. now rewrite finalize_fresh.
Qed.

Lemma scan_lines_plain_app (pre rest : list str) :
  plain pre ->
  scan_lines (pre ++ rest) excluded_exts =
  (kept <- scan_lines rest excluded_exts ;; Ok (pre ++ kept)).
Proof.
  intros Hpre. rewrite !scan_lines_chunks.
  unfold preamble at 1, chunks_of at 1. rewrite (segment_plain_app pre rest Hpre).
  simpl. destruct (keep_chunks excluded_exts (chunks_of rest)); simpl;
    [now rewrite app_assoc | reflexivity].
Qed.

End ScanFacts.

(* ================================================================== *)
(** ** The suffix test                                                 *)
(* ================================================================== *)

Section PolicyFacts.

(** The two subscripts of line 126-127 are guarded by line 125. *)
Lemma header_skip_unfold (line : str) (exts : list pyobj) :
  header_skip line exts =
  if Nat.leb 4 (length (split line)) then
    ext_loop (skipn 2 (nth 2 (split line) [])) (skipn 2 (nth 3 (split line) [])) exts
  else Ok false.
Proof.
  unfold header_skip.
  destruct (split line) as [|t1 [|t2 [|t3 [|t4 r]]]]; reflexivity.
Qed.

Lemma header_skip_short (line : str) (exts : list pyobj) :
  length (split line) < 4 -> header_skip line exts = Ok false.
Proof.
  intros H. rewrite header_skip_unfold.
  apply Nat.leb_gt in H. now rewrite H.
Qed.

Lemma ext_loop_app_strs (a b : str) (S : list str) (more : list pyobj) :
  ext_loop a b (strs S ++ more) =
  if existsb (fun suffix => endswith a suffix || endswith b suffix) S
  then Ok true else ext_loop a b more.
Proof.
  induction S as [|x S IH]; simpl; [reflexivity|].
  destruct (endswith a x); simpl; [reflexivity|].
  destruct (endswith b x); simpl; [reflexivity | exact IH].
Qed.

Lemma ext_loop_strs (a b : str) (S : list str) :
  ext_loop a b (strs S) =
  Ok (existsb (fun suffix => endswith a suffix || endswith b suffix) S).
Proof.
  rewrite <- (app_nil_r (strs S)), ext_loop_app_strs. simpl.
  now destruct (existsb _ S).
Qed.

Lemma excluded_by_policy_unfold (line : str) (S : list str) :
  excluded_by_policy line S =
  Nat.leb 4 (length (split line))
  && existsb (fun suffix => endswith (skipn 2 (nth 2 (split line) [])) suffix
                            || endswith (skipn 2 (nth 3 (split line) [])) suffix) S.
Proof.
  unfold excluded_by_policy.
  destruct (split line) as [|t1 [|t2 [|t3 [|t4 r]]]]; reflexivity.
Qed.

Lemma header_skip_strs (line : str) (S : list str) :
  header_skip line (strs S) = Ok (excluded_by_policy line S).
Proof.
  rewrite header_skip_unfold, excluded_by_policy_unfold, ext_loop_strs.
  now destruct (Nat.leb 4 (length (split line))).
Qed.

Lemma excluded_by_policy_iff (line : str) (S : list str) :
  excluded_by_policy line S = true <-> dropped_by S line.
Proof.
  rewrite excluded_by_policy_unfold, andb_true_iff, Nat.leb_le, existsb_exists.
  unfold dropped_by. split; intros [H4 (suffix & Hin & H)]; split; auto;
    exists suffix; split; auto.
  - apply orb_true_iff in H. now rewrite !endswith_iff in H.
  - apply orb_true_iff. now rewrite !endswith_iff.
Qed.

Lemma excluded_by_empty_suffix (line : str) (S : list str) :
  In [] S -> excluded_by_policy line S = Nat.leb 4 (length (split line)).
Proof.
  intros H. rewrite excluded_by_policy_unfold.
  replace (existsb _ S) with true; [apply andb_true_r|].
  symmetry. apply existsb_exists. exists []. split; [exact H|].
  now rewrite endswith_empty.
Qed.

Lemma keep_chunks_strs (S : list str) (chunks : list (list str)) :
  keep_chunks (strs S) chunks = Ok (concat (filter (chunk_kept S) chunks)).
Proof.
  induction chunks as [|c chunks IH]; [reflexivity|].
  simpl. rewrite header_skip_strs, IH. simpl. unfold chunk_kept.
  now destruct (excluded_by_policy (chunk_header c) S).
Qed.

Lemma scan_lines_strs (S : list str) (lines : list str) :
  scan_lines lines (strs S) = Ok (kept_lines S lines).
Proof. now rewrite scan_lines_chunks, keep_chunks_strs. Qed.

Lemma filter_strs (S : list str) (diff : str) :
  filter_excluded_files diff (strs S) =
  Ok (if forallb is_space diff then diff
      else join [LF] (kept_lines S (splitlines diff)) ++ [LF]).
Proof.
  unfold filter_excluded_files. rewrite strip_blank, scan_lines_strs.
  now destruct (forallb is_space diff).
Qed.

End PolicyFacts.

(* ================================================================== *)
(** ** Exceptions of the scan                                          *)
(* ================================================================== *)

Section RaiseFacts.

Lemma endswith_tuple_raise (s : str) (items : list pyobj) (e : exn) :
  endswith_tuple s items = Raise e -> e = TypeError.
Proof.
  induction items as [|[suffix | t | z |] items IH]; simpl; try congruence.
  destruct (endswith s suffix); [discriminate | exact IH].
Qed.

Lemma str_endswith_raise (s : str) (o : pyobj) (e : exn) :
  str_endswith s o = Raise e -> e = TypeError.
Proof.
  destruct o; simpl; try congruence. apply endswith_tuple_raise.
Qed.

Lemma ext_loop_raise (a b : str) (exts : list pyobj) (e : exn) :
  ext_loop a b exts = Raise e -> e = TypeError.
Proof.
  induction exts as [|o exts IH]; simpl; [discriminate|].
  destruct (str_endswith a o) as [[|]|e1] eqn:Ea; simpl.
  - discriminate.
  - destruct (str_endswith b o) as [[|]|e2] eqn:Eb; simpl.
    + discriminate.
    + exact IH.
    + intros [= <-]. eapply str_endswith_raise; eauto.
  - intros [= <-]. eapply str_endswith_raise; eauto.
Qed.

Lemma ext_loop_refused (a b : str) (bad : pyobj) (rest : list pyobj) :
  refused bad = true -> ext_loop a b (bad :: rest) = Raise TypeError.
Proof. destruct bad; simpl; congruence. Qed.

(** No subscript of the scan is out of range: [IndexError] never shows. *)
Lemma header_skip_raise (line : str) (exts : list pyobj) (e : exn) :
  header_skip line exts = Raise e -> e = TypeError /\ 4 <= length (split line).
Proof.
  rewrite header_skip_unfold.
  destruct (Nat.leb 4 (length (split line))) eqn:E; [|discriminate].
  apply Nat.leb_le in E. intros H. split; [|exact E]. eapply ext_loop_raise; eauto.
Qed.

Lemma for_loop_raises (exts : list pyobj) (lines : list str) : forall st,
  raises (for_loop (loop_body exts) lines st) <-> Exists (failing_header exts) lines.
Proof.
  unfold raises. induction lines as [|l rest IH]; intros st.
  - simpl. rewrite Exists_nil. split; [intros [e H]; discriminate | tauto].
  - rewrite Exists_cons. simpl for_loop. unfold loop_body at 1, failing_header at 1, raises.
    destruct (is_header l).
    + destruct (header_skip l exts) as [skip|e] eqn:E; simpl bind.
      * rewrite IH. split; [tauto|]. intros [[_ [e H]] | H]; [discriminate | exact H].
      * split; [|now exists e]. intros _. left. split; [reflexivity | now exists e].
    + simpl bind. rewrite IH. split; [tauto|]. intros [[H _] | H]; [discriminate | exact H].
Qed.

Lemma for_loop_raise_kind (exts : list pyobj) (lines : list str) : forall st e,
  for_loop (loop_body exts) lines st = Raise e -> e = TypeError.
Proof.
  induction lines as [|l rest IH]; intros st e; simpl; [discriminate|].
  unfold loop_body at 1. destruct (is_header l).
  - destruct (header_skip l exts) as [skip|e1] eqn:E; simpl bind.
    + apply IH.
    + intros [= <-]. now apply header_skip_raise in E.
  - simpl bind. apply IH.
Qed.

Lemma scan_lines_raises (exts : list pyobj) (lines : list str) :
  raises (scan_lines lines exts) <-> Exists (failing_header exts) lines.
Proof.
  rewrite <- (for_loop_raises exts lines initial_state).
  unfold scan_lines, raises.
  destruct (for_loop (loop_body exts) lines initial_state) as [st|e0]; simpl;
    split; intros [e H]; try discriminate; now exists e0.
Qed.

Lemma filter_raises (exts : list pyobj) (diff : str) :
  raises (filter_excluded_files diff exts) <->
  strip diff <> [] /\ Exists (failing_header exts) (splitlines diff).
Proof.
  rewrite <- scan_lines_raises. unfold filter_excluded_files, raises.
  destruct (strip diff) eqn:S; simpl.
  - split; [intros [e H]; discriminate | intros [H _]; congruence].
  - destruct (scan_lines (splitlines diff) exts) as [kept|e0]; simpl; split.
    + intros [e H]; discriminate.
    + intros [_ [e H]]; discriminate.
    + intros _. split; [discriminate | now exists e0].
    + intros _. now exists e0.
Qed.

Lemma filter_raise_kind (exts : list pyobj) (diff : str) (e : exn) :
  filter_excluded_files diff exts = Raise e -> e = TypeError.
Proof.
  unfold filter_excluded_files, scan_lines.
  destruct (is_empty (strip diff)); [discriminate|].
  destruct (for_loop (loop_body exts) (splitlines diff) initial_state)
    as [st|e0] eqn:E; simpl.
  - discriminate.
  - intros [= <-]. eapply for_loop_raise_kind; eauto.
Qed.

End RaiseFacts.

(* ================================================================== *)
(** ** The kept lines                                                  *)
(* ================================================================== *)

Section KeptFacts.

Variable S : list str.

Lemma filter_twice {A : Type} (f : A -> bool) (l : list A) :
  filter f (filter f l) = filter f l.
Proof.
  induction l as [|a l IH]; [reflexivity|]. simpl.
  destruct (f a) eqn:E; simpl; [rewrite E; now f_equal | exact IH].
Qed.

Lemma Forall_on_filter {A : Type} (P : A -> Prop) (f : A -> bool) (l : list A) :
  Forall P l -> Forall P (filter f l).
Proof.
  induction 1 as [|a l Ha _ IH]; simpl; [constructor|].
  destruct (f a); [constructor|]; assumption.
Qed.

Lemma kept_lines_segment (lines : list str) :
  segment (kept_lines S lines) =
  (preamble lines, filter (chunk_kept S) (chunks_of lines)).
Proof.
  apply segment_unique; [apply preamble_plain|].
  apply Forall_on_filter, chunks_well_formed.
Qed.

Lemma kept_lines_idem (lines : list str) :
  kept_lines S (kept_lines S lines) = kept_lines S lines.
Proof.
  unfold kept_lines at 1. unfold preamble, chunks_of.
  rewrite kept_lines_segment. simpl. now rewrite filter_twice.
Qed.

Lemma kept_lines_in (lines : list str) (l : str) :
  In l (kept_lines S lines) -> In l lines.
Proof.
  intros H. rewrite <- (segment_partition lines).
  apply in_app_or in H as [H | H]; apply in_or_app; [now left | right].
  apply in_concat in H as (c & Hc & Hl). apply in_concat.
  exists c. split; [|exact Hl]. now apply filter_In in Hc.
Qed.

Lemma kept_lines_break_free (lines : list str) :
  Forall break_free lines -> Forall break_free (kept_lines S lines).
Proof.
  rewrite !Forall_forall. intros H l Hl. apply H. now apply kept_lines_in.
Qed.

Lemma segment_app (l1 l2 : list str) :
  starts_chunk l2 ->
  segment (l1 ++ l2) = (preamble l1, chunks_of l1 ++ chunks_of l2).
Proof.
  intros H2. induction l1 as [|l l1 IH].
  - destruct l2 as [|h t]; [reflexivity|]. simpl in H2. simpl app.
    unfold chunks_of. now rewrite segment_cons, H2.
  - simpl app. unfold preamble, chunks_of. rewrite !segment_cons.
    unfold preamble, chunks_of. rewrite IH. now destruct (is_header l).
Qed.

Lemma kept_lines_app (l1 l2 : list str) :
  starts_chunk l2 -> kept_lines S (l1 ++ l2) = kept_lines S l1 ++ kept_lines S l2.
Proof.
  intros H2. unfold kept_lines at 1. unfold preamble, chunks_of.
  rewrite (segment_app l1 l2 H2). simpl.
  rewrite filter_app, concat_app, app_assoc.
  unfold kept_lines. f_equal.
  destruct l2 as [|h t]; [reflexivity|]. simpl in H2.
  unfold preamble. now rewrite segment_cons, H2.
Qed.

Lemma kept_lines_chunk (h : str) (body : list str) :
  is_header h = true -> plain body ->
  kept_lines S (h :: body) = if excluded_by_policy h S then [] else h :: body.
Proof.
  intros Hh Hbody.
  assert (E : segment (h :: body) = ([], [h :: body])).
  { assert (C : Forall is_chunk [h :: body])
      by (constructor; [now exists h, body | constructor]).
    apply segment_chunks in C.
    change (concat [h :: body]) with ((h :: body) ++ []) in C.
    now rewrite app_nil_r in C. }
  unfold kept_lines, preamble, chunks_of. rewrite E. simpl.
  unfold chunk_kept, chunk_header. simpl.
  destruct (excluded_by_policy h S); simpl; [reflexivity | now rewrite app_nil_r].
Qed.

(** A text whose first line is a header line is not blank. *)
Lemma header_first_not_blank (diff first : str) (rest : list str) :
  splitlines diff = first :: rest -> is_header first = true ->
  forallb is_space diff = false.
Proof.
  intros Hs Hh. apply startswith_iff in Hh as [tail ->].
  destruct (forallb is_space diff) eqn:B; [|reflexivity].
  rewrite forallb_forall in B.
  assert (H : In 100%N diff).
  { apply (splitlines_in diff (diff_header_prefix ++ tail)).
    - rewrite Hs. now left.
    - now left. }
  apply B in H. discriminate.
Qed.

Lemma filter_idem (diff : str) :
  exists out, filter_excluded_files diff (strs S) = Ok out
              /\ filter_excluded_files out (strs S) = Ok out.
Proof.
  rewrite filter_strs. destruct (forallb is_space diff) eqn:B.
  - exists diff. split; [reflexivity|]. now rewrite filter_strs, B.
  - set (K := kept_lines S (splitlines diff)).
    exists (join [LF] K ++ [LF]). split; [reflexivity|].
    rewrite filter_strs. destruct (forallb is_space (join [LF] K ++ [LF])) eqn:B2;
      [reflexivity|].
    assert (HK : K <> []) by (intros E; rewrite E in B2; discriminate).
    rewrite (join_terminated K HK) at 1.
    rewrite splitlines_terminated
      by (apply kept_lines_break_free, splitlines_break_free).
    unfold K. now rewrite kept_lines_idem.
Qed.

End KeptFacts.

(* ================================================================== *)
(** ** The properties of the specification                             *)
(* ================================================================== *)

(** C1. For an input whose first line is a header line and any list of
    string suffixes, the chunks partition the lines of the input, every chunk
    is a header line followed by its body, and the filter returns the kept
    chunks whole, in input order, their lines joined by newlines, with one
    newline appended. *)
Theorem C1_filter_keeps_whole_chunks_in_order :
  forall (diff : str) (S : list str) (first : str) (rest : list str),
    splitlines diff = first :: rest ->
    is_header first = true ->
    concat (chunks_of (splitlines diff)) = splitlines diff /\
    Forall is_chunk (chunks_of (splitlines diff)) /\
    filter_excluded_files diff (strs S) =
      Ok (filtered_text (filter (chunk_kept S) (chunks_of (splitlines diff)))).
Proof.
  intros diff S first rest Hs Hh.
  assert (Hpre : preamble (splitlines diff) = [])
    by (rewrite Hs; now apply preamble_of_header).
  split; [|split].
  - rewrite <- (segment_partition (splitlines diff)) at 2. now rewrite Hpre.
  - apply chunks_well_formed.
  - rewrite filter_strs, (header_first_not_blank diff first rest Hs Hh).
    unfold kept_lines, filtered_text. now rewrite Hpre.
Qed.

Lemma C1_witness :
  splitlines diff_go_svg =
    lit "diff --git a/main.go b/main.go"
    :: map lit ["+x=1"; "diff --git a/asset.svg b/asset.svg"; "+<svg/>"]%string /\
  is_header (lit "diff --git a/main.go b/main.go") = true /\
  filter_excluded_files diff_go_svg (strs [lit ".svg"]) =
    Ok (text ["diff --git a/main.go b/main.go"; "+x=1"]%string).
Proof.
  split; [reflexivity | split; [reflexivity|]].
  destruct (C1_filter_keeps_whole_chunks_in_order diff_go_svg [lit ".svg"]
              (lit "diff --git a/main.go b/main.go")
              (map lit ["+x=1"; "diff --git a/asset.svg b/asset.svg"; "+<svg/>"]%string)
              eq_refl eq_refl) as (_ & _ & H).
  rewrite H. reflexivity.
Defined.

(** C2, as the code has it. Lines in front of the first header line are kept:
    for an input that is not blank, the output is those lines followed by what
    the scan keeps of the rest; with no header line at all, the output is
    every line of the input, joined by newlines, with one newline appended. *)
Theorem C2_lines_before_first_header_are_kept :
  forall (diff : str) (exts : list pyobj),
    strip diff <> [] ->
    (plain (splitlines diff) ->
     filter_excluded_files diff exts = Ok (join [LF] (splitlines diff) ++ [LF])) /\
    (forall pre rest : list str,
        splitlines diff = pre ++ rest -> plain pre ->
        filter_excluded_files diff exts =
          (kept <- scan_lines rest exts ;; Ok (join [LF] (pre ++ kept) ++ [LF]))).
Proof.
  intros diff exts Hblank.
  assert (G : forall pre rest : list str,
             splitlines diff = pre ++ rest -> plain pre ->
             filter_excluded_files diff exts =
               (kept <- scan_lines rest exts ;; Ok (join [LF] (pre ++ kept) ++ [LF]))).
  { intros pre rest Hs Hpre. unfold filter_excluded_files.
    destruct (strip diff); [congruence|]. simpl is_empty. cbv iota.
    rewrite Hs, (scan_lines_plain_app exts pre rest Hpre).
    now destruct (scan_lines rest exts). }
  split; [|exact G].
  intros Hplain. rewrite (G (splitlines diff) []).
  - simpl. now rewrite app_nil_r.
  - now rewrite app_nil_r.
  - exact Hplain.
Qed.

Lemma C2_witness :
  strip diff_with_note <> [] /\
  filter_excluded_files diff_with_note (strs [lit ".png"]) =
    Ok (text ["note"; "diff --git a/main.go b/main.go"; "+x=1"]%string).
Proof.
  assert (Hb : strip diff_with_note <> []) by (vm_compute; discriminate).
  split; [exact Hb|].
  destruct (C2_lines_before_first_header_are_kept diff_with_note
              (strs [lit ".png"]) Hb) as [_ H].
  assert (Hp : plain [lit "note"]) by (repeat constructor).
  rewrite (H [lit "note"]
             (map lit ["diff --git a/logo.png b/logo.png"; "+1";
                       "diff --git a/main.go b/main.go"; "+x=1"]%string)
             eq_refl Hp).
  reflexivity.
Defined.

(** C2 fails as stated: a text with no header line is returned whole, not as a
    lone newline, and a line in front of the first header line is in the
    output. *)
Lemma C2_counterexample :
  strip (lit "hello") <> [] /\
  plain (splitlines (lit "hello")) /\
  filter_excluded_files (lit "hello") (strs [lit ".png"]) = Ok (lit "hello" ++ [LF]) /\
  filter_excluded_files (lit "hello") (strs [lit ".png"]) <> Ok [LF] /\
  filter_excluded_files diff_with_note (strs [lit ".png"]) =
    Ok (text ["note"; "diff --git a/main.go b/main.go"; "+x=1"]%string).
Proof.
  split; [vm_compute; discriminate|].
  split; [repeat constructor|].
  split; [reflexivity|].
  split; [vm_compute; discriminate | reflexivity].
Qed.

(** C4. Filtering is idempotent: for every text and every list of string
    suffixes the filter returns a text, and filtering that text again with
    the same suffixes returns it unchanged. *)
Theorem C4_filter_idempotent :
  forall (D : str) (S : list str),
    exists out,
      filter_excluded_files D (strs S) = Ok out /\
      filter_excluded_files out (strs S) = Ok out.
Proof. intros D S. apply filter_idem. Qed.

(** C3, as the code has it. The suffix list is never validated: the filter
    raises nothing but [TypeError], and raises it exactly when the input is not
    blank and the scan reaches a header line whose suffix test raises; for an
    entry that [str.endswith] refuses, that is a header line of at least four
    tokens none of whose paths matched an earlier suffix. *)
Theorem C3_suffix_list_fails_only_at_a_header_line :
  forall (diff : str) (exts : list pyobj),
    (forall e, filter_excluded_files diff exts = Raise e -> e = TypeError) /\
    (raises (filter_excluded_files diff exts) <->
       strip diff <> [] /\ Exists (failing_header exts) (splitlines diff)) /\
    (forall (line : str) (S : list str) (bad : pyobj) (rest : list pyobj),
        refused bad = true ->
        (raises (header_skip line (strs S ++ bad :: rest)) <->
           4 <= length (split line) /\ excluded_by_policy line S = false)).
Proof.
  intros diff exts. split; [|split].
  - intros e. apply filter_raise_kind.
  - apply filter_raises.
  - intros line S bad rest Hbad. unfold raises.
    rewrite header_skip_unfold, excluded_by_policy_unfold, ext_loop_app_strs.
    destruct (Nat.leb 4 (length (split line))) eqn:E4.
    + apply Nat.leb_le in E4. simpl andb.
      destruct (existsb _ S).
      * split; [intros [e H]; discriminate | intros [_ H]; discriminate].
      * rewrite (ext_loop_refused _ _ bad rest Hbad).
        split; [intros _; now split | intros _; now exists TypeError].
    + apply Nat.leb_gt in E4.
      split; [intros [e H]; discriminate | intros [H _]; lia].
Qed.

(** C3 fails as stated: a suffix list with a non-string entry is accepted when
    no full header line is met, and the failure, a [TypeError], comes at the
    header line, after the lines in front of it were scanned. *)
Lemma C3_counterexample :
  filter_excluded_files (lit "hello") [PyInt 5] = Ok (lit "hello" ++ [LF]) /\
  filter_excluded_files [] [PyNone] = Ok [] /\
  (exists st,
      for_loop (loop_body [PyInt 5]) [lit "note"] initial_state = Ok st /\
      loop_body [PyInt 5] st (lit "diff --git a/logo.png b/logo.png") = Raise TypeError) /\
  filter_excluded_files diff_with_note [PyInt 5] = Raise TypeError.
Proof.
  split; [reflexivity|]. split; [reflexivity|]. split; [|reflexivity].
  eexists. split; reflexivity.
Qed.

(** C5. A chunk is dropped exactly when its header line has at least four
    tokens and token 3 or token 4, without its first two code points, ends
    with a suffix of the policy; the match is an exact trailing match; a
    header of fewer than four tokens sets no skip flag; the suffixes after the
    first match are not looked at. *)
Theorem C5_chunk_dropped_iff_suffix_match :
  forall (S : list str) (header : str) (body before after : list str),
    is_header header = true -> plain body -> starts_chunk after ->
    (header_skip header (strs S) = Ok true <-> dropped_by S header) /\
    (header_skip header (strs S) = Ok false <-> ~ dropped_by S header) /\
    (dropped_by S header ->
     scan_lines (before ++ (header :: body) ++ after) (strs S) =
       Ok (kept_lines S before ++ kept_lines S after)) /\
    (~ dropped_by S header ->
     scan_lines (before ++ (header :: body) ++ after) (strs S) =
       Ok (kept_lines S before ++ (header :: body) ++ kept_lines S after)) /\
    (length (split header) < 4 ->
     forall exts, header_skip header exts = Ok false) /\
    (dropped_by S header ->
     forall more, header_skip header (strs S ++ more) = Ok true) /\
    endswith (lit "icon_png") (lit ".png") = false /\
    endswith (lit "foo.PNG") (lit ".png") = false.
Proof.
  intros S header body before after Hh Hbody Hafter.
  assert (Hscan : scan_lines (before ++ (header :: body) ++ after) (strs S) =
                  Ok (kept_lines S before
                      ++ (if excluded_by_policy header S then [] else header :: body)
                      ++ kept_lines S after)).
  { rewrite scan_lines_strs, kept_lines_app by exact Hh.
    rewrite (kept_lines_app S (header :: body) after Hafter).
    now rewrite (kept_lines_chunk S header body Hh Hbody). }
  assert (Hshort : length (split header) < 4 ->
                   forall exts, header_skip header exts = Ok false)
    by (intros H4 exts; now apply header_skip_short).
  assert (Hstop : excluded_by_policy header S = true ->
                  forall more, header_skip header (strs S ++ more) = Ok true).
  { intros E more. rewrite header_skip_unfold, ext_loop_app_strs.
    rewrite excluded_by_policy_unfold in E. apply andb_true_iff in E as [E4 Ex].
    now rewrite E4, Ex. }
  rewrite header_skip_strs. rewrite <- excluded_by_policy_iff.
  split; [|split; [|split; [|split; [|split; [exact Hshort|
    split; [exact Hstop | split; reflexivity]]]]]].
  - split; congruence.
  - destruct (excluded_by_policy header S); split; congruence.
  - intros E. now rewrite Hscan, E.
  - intros E. rewrite Hscan.
    destruct (excluded_by_policy header S); [congruence | reflexivity].
Qed.

Lemma C5_witness :
  is_header (lit "diff --git a/asset.svg b/asset.svg") = true /\
  dropped_by [lit ".svg"] (lit "diff --git a/asset.svg b/asset.svg") /\
  scan_lines (map lit ["diff --git a/main.go b/main.go"; "+x=1";
                       "diff --git a/asset.svg b/asset.svg"; "+<svg/>";
                       "diff --git a/b.go b/b.go"]%string)
             (strs [lit ".svg"]) =
    Ok (map lit ["diff --git a/main.go b/main.go"; "+x=1";
                 "diff --git a/b.go b/b.go"]%string).
Proof.
  assert (Hb : plain [lit "+<svg/>"]) by (repeat constructor).
  destruct (C5_chunk_dropped_iff_suffix_match [lit ".svg"]
              (lit "diff --git a/asset.svg b/asset.svg") [lit "+<svg/>"]
              (map lit ["diff --git a/main.go b/main.go"; "+x=1"]%string)
              [lit "diff --git a/b.go b/b.go"]
              eq_refl Hb eq_refl) as (H1 & _ & H3 & _).
  assert (Hd : dropped_by [lit ".svg"] (lit "diff --git a/asset.svg b/asset.svg"))
    by (apply H1; reflexivity).
  split; [reflexivity | split; [exact Hd|]].
  exact (H3 Hd).
Defined.

(** C6. A line opens a chunk exactly when it begins with the literal
    [diff --git ]; any other line, whatever it holds further on, is appended
    to the current chunk and changes neither the kept lines nor the skip
    flag. *)
Theorem C6_header_is_anchored_at_line_start :
  forall (exts : list pyobj) (st : scan_state) (line : str),
    (is_header line = true <-> exists rest, line = lit "diff --git " ++ rest) /\
    (is_header line = false ->
     loop_body exts st line =
       Ok (mkState (kept_chunks st) (current_chunk_lines st ++ [line])
                   (skip_current_chunk st))) /\
    (is_header line = true ->
     forall st', loop_body exts st line = Ok st' ->
       kept_chunks st' = finalize_chunk st /\ current_chunk_lines st' = [line]) /\
    (forall (c : char) (front back : str),
        c <> 100%N ->
        is_header (c :: front ++ lit "diff --git " ++ back) = false).
Proof.
  intros exts st line. split; [|split; [|split]].
  - apply startswith_iff.
  - intros H. unfold loop_body. now rewrite H.
  - intros H st'. unfold loop_body. rewrite H.
    destruct (header_skip line exts); simpl; [|discriminate].
    intros [= <-]. now split.
  - intros c front back Hc. unfold is_header. simpl.
    apply N.eqb_neq in Hc. now rewrite Hc.
Qed.

(** Scenario 3 of the specification: the quoted header stays in its chunk. *)
Example quoted_header_is_body :
  contains (lit "diff --git ") (lit "+run diff --git a/logo.png b/logo.png") = true /\
  filter_excluded_files diff_quoting (strs [lit ".png"]) = Ok diff_quoting.
Proof. split; reflexivity. Qed.

(** C7. An input that is empty or holds only whitespace is returned as it is,
    whatever the suffix list. *)
Theorem C7_blank_input_unchanged :
  forall (diff : str) (exts : list pyobj),
    Forall (fun c => is_space c = true) diff ->
    filter_excluded_files diff exts = Ok diff.
Proof.
  intros diff exts H. unfold filter_excluded_files.
  rewrite strip_blank.
  replace (forallb is_space diff) with true; [reflexivity|].
  symmetry. apply forallb_forall. now apply Forall_forall.
Qed.

Lemma C7_witness :
  filter_excluded_files [] (strs [lit ".png"]) = Ok [] /\
  filter_excluded_files (lit "  " ++ [LF; 9%N; CR]) [PyNone] = Ok (lit "  " ++ [LF; 9%N; CR]).
Proof.
  split.
  - apply (C7_blank_input_unchanged [] (strs [lit ".png"])). constructor.
  - apply (C7_blank_input_unchanged (lit "  " ++ [LF; 9%N; CR]) [PyNone]).
    repeat constructor.
Defined.

(** C8. On a text and a list of string suffixes the filter always returns a
    text; and whatever the suffix list holds, no subscript is out of range. *)
Theorem C8_filter_total :
  forall (diff : str) (S : list str),
    (exists out, filter_excluded_files diff (strs S) = Ok out) /\
    (forall exts, filter_excluded_files diff exts <> Raise IndexError).
Proof.
  intros diff S. split.
  - rewrite filter_strs. eexists. reflexivity.
  - intros exts H. apply filter_raise_kind in H. discriminate.
Qed.

(** C9. Once the diff is filtered with the built-in suffix list, [main] exits
    with code 0 when the filtered diff is blank or the verdict holds the
    substring APPROVED, and with code 1 otherwise. *)
Theorem C9_exit_code :
  forall (call_openai_api : str -> str -> str) (diff_content context : str),
    exists (filtered : str) (printed : list str) (code : Z),
      filter_excluded_files diff_content EXCLUDED_EXTENSIONS = Ok filtered /\
      main_decide call_openai_api diff_content context = Ok (printed, code) /\
      (code = 0%Z <->
         Forall (fun c => is_space c = true) filtered \/
         exists pre post,
           call_openai_api filtered context = pre ++ lit "APPROVED" ++ post) /\
      (code <> 0%Z -> code = 1%Z).
Proof.
  intros api diff context. unfold main_decide, EXCLUDED_EXTENSIONS.
  rewrite filter_strs. simpl bind.
  set (filtered := if forallb is_space diff then diff else _).
  exists filtered. rewrite strip_blank.
  destruct (forallb is_space filtered) eqn:B.
  - do 2 eexists. split; [reflexivity|]. split; [reflexivity|].
    split; [|congruence].
    split; [|reflexivity]. intros _. left.
    apply Forall_forall. now apply forallb_forall.
  - assert (NB : ~ Forall (fun c => is_space c = true) filtered).
    { intros H. rewrite Forall_forall, <- forallb_forall in H. congruence. }
    destruct (contains (lit "APPROVED") (api filtered context)) eqn:C.
    + do 2 eexists. split; [reflexivity|]. split; [reflexivity|].
      split; [|congruence].
      split; [|reflexivity]. intros _. right. now apply contains_iff.
    + do 2 eexists. split; [reflexivity|]. split; [reflexivity|].
      split; [|reflexivity].
      split; [discriminate|]. intros [H | H]; [contradiction|].
      apply contains_iff in H. congruence.
Qed.

(** C10. With the empty string among the suffixes, every header line of at
    least four tokens sets the skip flag, and the output of the filter holds,
    besides the lines in front of the first header line, exactly the chunks
    whose header line has fewer than four tokens. *)
Theorem C10_empty_suffix_drops_every_full_header :
  forall (S : list str) (diff : str),
    In [] S -> strip diff <> [] ->
    (forall line, 4 <= length (split line) -> header_skip line (strs S) = Ok true) /\
    filter_excluded_files diff (strs S) =
      Ok (join [LF]
            (preamble (splitlines diff)
             ++ concat (filter (fun c => Nat.ltb (length (split (chunk_header c))) 4)
                               (chunks_of (splitlines diff))))
          ++ [LF]).
Proof.
  intros S diff Hin Hblank. split.
  - intros line H4. rewrite header_skip_strs, excluded_by_empty_suffix by exact Hin.
    apply Nat.leb_le in H4. now rewrite H4.
  - rewrite filter_strs.
    destruct (forallb is_space diff) eqn:B.
    + apply strip_nil_iff in B. contradiction.
    + unfold kept_lines. do 5 f_equal. apply filter_ext. intros c.
      unfold chunk_kept. rewrite excluded_by_empty_suffix by exact Hin.
      symmetry. apply Nat.ltb_antisym.
Qed.

Lemma C10_witness :
  In [] [lit ".png"; []] /\
  strip diff_truncated <> [] /\
  filter_excluded_files diff_truncated (strs [lit ".png"; []]) =
    Ok (text ["diff --git a/logo.png"; "+1"]%string).
Proof.
  assert (Hin : In ([] : str) [lit ".png"; []]) by (right; now left).
  assert (Hb : strip diff_truncated <> []) by (vm_compute; discriminate).
  split; [exact Hin | split; [exact Hb|]].
  destruct (C10_empty_suffix_drops_every_full_header [lit ".png"; []]
              diff_truncated Hin Hb) as [_ H].
  rewrite H. reflexivity.
Defined.


(* ================================================================== *)
(** ** More about the filter                                           *)
(* ================================================================== *)

Section FilterAlgebra.

Lemma in_join (sep : str) (lines : list str) (c : char) :
  In c (join sep lines) -> In c sep \/ exists l, In l lines /\ In c l.
Proof.
  induction lines as [|l lines IH]; [intros []|].
  destruct lines as [|l2 lines].
  - simpl. intros H. right. exists l. split; [now left | exact H].
  - change (join sep (l :: l2 :: lines)) with (l ++ sep ++ join sep (l2 :: lines)).
    intros H. apply in_app_or in H as [H | H].
    + right. exists l. split; [now left | exact H].
    + apply in_app_or in H as [H | H]; [now left|].
      destruct (IH H) as [H1 | (l' & Hl' & Hc)]; [now left|].
      right. exists l'. split; [now right | exact Hc].
Qed.

Lemma in_line_in_join (sep : str) (lines : list str) (l : str) (c : char) :
  In l lines -> In c l -> In c (join sep lines).
Proof.
  induction lines as [|l1 lines IH]; [intros []|].
  intros Hl Hc. destruct lines as [|l2 lines].
  - destruct Hl as [-> | []]. exact Hc.
  - change (join sep (l1 :: l2 :: lines)) with (l1 ++ sep ++ join sep (l2 :: lines)).
    destruct Hl as [-> | Hl]; apply in_or_app; [now left | right].
    apply in_or_app. right. now apply IH.
Qed.

(** A header line holds the letter [d], which is no whitespace. *)
Lemma header_not_blank (l : str) : is_header l = true -> forallb is_space l = false.
Proof.
  intros H. apply startswith_iff in H as [tail ->]. reflexivity.
Qed.

(** The lines of a blank text are plain. *)
Lemma blank_join_plain (lines : list str) :
  forallb is_space (join [LF] lines ++ [LF]) = true -> plain lines.
Proof.
  intros B. apply Forall_forall. intros l Hl.
  destruct (is_header l) eqn:E; [|reflexivity].
  apply header_not_blank in E.
  assert (A : forallb is_space l = true); [|congruence].
  apply forallb_forall. intros c Hc.
  rewrite forallb_forall in B. apply B.
  apply in_or_app. left. now apply (in_line_in_join [LF] lines l c).
Qed.

Lemma kept_lines_plain (S : list str) (lines : list str) :
  plain lines -> kept_lines S lines = lines.
Proof.
  intros H. unfold kept_lines, preamble, chunks_of.
  rewrite (segment_plain lines H). simpl. apply app_nil_r.
Qed.

(** Filtering a text that was written out line by line. *)
Lemma filter_written (S : list str) (lines : list str) :
  Forall break_free lines ->
  filter_excluded_files (join [LF] lines ++ [LF]) (strs S) =
  Ok (join [LF] (kept_lines S lines) ++ [LF]).
Proof.
  intros Hbf. rewrite filter_strs.
  destruct (forallb is_space (join [LF] lines ++ [LF])) eqn:B.
  - now rewrite (kept_lines_plain S lines (blank_join_plain lines B)).
  - assert (Hne : lines <> []) by (intros E; rewrite E in B; discriminate).
    rewrite (join_terminated lines Hne) at 1.
    now rewrite (splitlines_terminated lines Hbf).
Qed.

Lemma excluded_by_policy_app (line : str) (S1 S2 : list str) :
  excluded_by_policy line (S1 ++ S2) =
  excluded_by_policy line S1 || excluded_by_policy line S2.
Proof.
  rewrite !excluded_by_policy_unfold, existsb_app.
  destruct (Nat.leb 4 (length (split line))); reflexivity.
Qed.

Lemma filter_filter_and {A : Type} (f g : A -> bool) (l : list A) :
  filter g (filter f l) = filter (fun x => f x && g x) l.
Proof.
  induction l as [|a l IH]; [reflexivity|]. simpl.
  destruct (f a); simpl; [destruct (g a); now rewrite IH | exact IH].
Qed.

Lemma kept_lines_compose (S1 S2 : list str) (lines : list str) :
  kept_lines S2 (kept_lines S1 lines) = kept_lines (S1 ++ S2) lines.
Proof.
  unfold kept_lines at 1. unfold preamble, chunks_of.
  rewrite kept_lines_segment. simpl. rewrite filter_filter_and.
  unfold kept_lines. do 2 f_equal. apply filter_ext. intros c.
  unfold chunk_kept. rewrite excluded_by_policy_app. symmetry. apply negb_orb.
Qed.

Lemma excluded_by_policy_same (line : str) (S S' : list str) :
  (forall x, In x S <-> In x S') ->
  excluded_by_policy line S = excluded_by_policy line S'.
Proof.
  intros H. rewrite !excluded_by_policy_unfold. f_equal.
  apply eq_true_iff_eq. rewrite !existsb_exists.
  split; intros (x & Hx & Hm); exists x; (split; [now apply H | exact Hm]).
Qed.

Lemma kept_lines_same (S S' : list str) (lines : list str) :
  (forall x, In x S <-> In x S') -> kept_lines S lines = kept_lines S' lines.
Proof.
  intros H. unfold kept_lines. do 2 f_equal. apply filter_ext. intros c.
  unfold chunk_kept. f_equal. now apply excluded_by_policy_same.
Qed.

Lemma kept_lines_no_policy (lines : list str) : kept_lines [] lines = lines.
Proof.
  unfold kept_lines.
  replace (filter (chunk_kept []) (chunks_of lines)) with (chunks_of lines).
  - apply segment_partition.
  - symmetry. apply forallb_filter_id. apply forallb_forall. intros c _.
    unfold chunk_kept. rewrite excluded_by_policy_unfold. simpl.
    now rewrite andb_false_r.
Qed.

Lemma subseq_refl {A : Type} (l : list A) : subseq l l.
Proof. induction l; constructor; assumption. Qed.

Lemma subseq_app {A : Type} (a1 a2 b1 b2 : list A) :
  subseq a1 a2 -> subseq b1 b2 -> subseq (a1 ++ b1) (a2 ++ b2).
Proof.
  intros Ha Hb. induction Ha; simpl; [exact Hb | |]; constructor; assumption.
Qed.

Lemma subseq_nil_l {A : Type} (l : list A) : subseq [] l.
Proof. induction l; constructor; assumption. Qed.

Lemma subseq_concat_filter {A : Type} (f : list A -> bool) (ls : list (list A)) :
  subseq (concat (filter f ls)) (concat ls).
Proof.
  induction ls as [|l ls IH]; simpl; [constructor|].
  destruct (f l); simpl.
  - apply subseq_app; [apply subseq_refl | exact IH].
  - apply (subseq_app [] l); [apply subseq_nil_l | exact IH].
Qed.

Lemma kept_lines_subseq (S : list str) (lines : list str) :
  subseq (kept_lines S lines) lines.
Proof.
  rewrite <- (segment_partition lines) at 2. unfold kept_lines.
  apply subseq_app; [apply subseq_refl | apply subseq_concat_filter].
Qed.

Lemma terminated_length_subseq (l1 l2 : list str) :
  subseq l1 l2 -> length (terminated l1) <= length (terminated l2).
Proof.
  unfold terminated. induction 1; simpl; rewrite ?length_app; simpl; lia.
Qed.

Lemma splitlines_from_length (s cur : str) :
  length (terminated (splitlines_from cur s)) <= length cur + length s + 1.
Proof.
  revert cur. induction s as [| c | c c2 s IH1 IH2] using str_pair_ind; intros cur.
  - destruct cur; unfold terminated; simpl; rewrite ?length_app; simpl; lia.
  - simpl. destruct (is_linebreak c).
    + unfold terminated. simpl. rewrite !length_app. simpl. lia.
    + destruct (cur ++ [c]) eqn:E.
      * unfold terminated. simpl. lia.
      * rewrite <- E. unfold terminated. simpl. rewrite !length_app. simpl. lia.
  - change (splitlines_from cur (c :: c2 :: s)) with
      (if is_linebreak c
       then if N.eqb c CR && N.eqb c2 LF
            then cur :: splitlines_from [] s
            else cur :: splitlines_from [] (c2 :: s)
       else splitlines_from (cur ++ [c]) (c2 :: s)).
    destruct (is_linebreak c).
    + destruct (N.eqb c CR && N.eqb c2 LF).
      * specialize (IH1 []). unfold terminated in *. simpl in *.
        rewrite !length_app. simpl. lia.
      * specialize (IH2 []). unfold terminated in *. simpl in *.
        rewrite !length_app. simpl. lia.
    + specialize (IH2 (cur ++ [c])). rewrite length_app in IH2. simpl in *. lia.
Qed.

Lemma existsb_orb {A : Type} (f g : A -> bool) (l : list A) :
  existsb (fun x => f x || g x) l = existsb f l || existsb g l.
Proof.
  induction l as [|a l IH]; [reflexivity|]. simpl. rewrite IH.
  destruct (f a), (g a), (existsb f l), (existsb g l); reflexivity.
Qed.

Lemma endswith_tuple_strs (s : str) (T : list str) :
  endswith_tuple s (strs T) = Ok (existsb (endswith s) T).
Proof.
  induction T as [|t T IH]; [reflexivity|]. simpl.
  destruct (endswith s t); [reflexivity | exact IH].
Qed.

Lemma ext_loop_tuple (a b : str) (T : list str) (rest : list pyobj) :
  ext_loop a b (PyTuple (strs T) :: rest) = ext_loop a b (strs T ++ rest).
Proof.
  rewrite ext_loop_app_strs, existsb_orb. simpl. rewrite !endswith_tuple_strs.
  destruct (existsb (endswith a) T); simpl; [reflexivity|].
  now destruct (existsb (endswith b) T).
Qed.

Lemma keep_chunks_ext (e1 e2 : list pyobj) (chunks : list (list str)) :
  (forall line, header_skip line e1 = header_skip line e2) ->
  keep_chunks e1 chunks = keep_chunks e2 chunks.
Proof.
  intros H. induction chunks as [|c chunks IH]; [reflexivity|].
  simpl. now rewrite H, IH.
Qed.

(** The filter depends on the suffix list through the suffix test only. *)
Lemma filter_ext_policy (e1 e2 : list pyobj) (diff : str) :
  (forall line, header_skip line e1 = header_skip line e2) ->
  filter_excluded_files diff e1 = filter_excluded_files diff e2.
Proof.
  intros H. unfold filter_excluded_files.
  now rewrite !scan_lines_chunks, (keep_chunks_ext e1 e2 _ H).
Qed.

End FilterAlgebra.

(** X1. Filtering with one suffix list and then with another gives what
    filtering once with both lists gives. *)
Theorem X1_filter_composes :
  forall (D : str) (S1 S2 : list str),
    exists mid,
      filter_excluded_files D (strs S1) = Ok mid /\
      filter_excluded_files mid (strs S2) = filter_excluded_files D (strs (S1 ++ S2)).
Proof.
  intros D S1 S2. rewrite (filter_strs S1 D), (filter_strs (S1 ++ S2) D).
  destruct (forallb is_space D) eqn:B.
  - exists D. split; [reflexivity|]. now rewrite filter_strs, B.
  - eexists. split; [reflexivity|].
    rewrite filter_written
      by (apply kept_lines_break_free, splitlines_break_free).
    now rewrite kept_lines_compose.
Qed.

(** X2. Only the members of the suffix list count: two lists with the same
    members, in any order and with any repeats, filter alike. *)
Theorem X2_policy_is_a_set :
  forall (D : str) (S S' : list str),
    (forall x, In x S <-> In x S') ->
    filter_excluded_files D (strs S) = filter_excluded_files D (strs S').
Proof.
  intros D S S' H. rewrite !filter_strs. now rewrite (kept_lines_same S S' _ H).
Qed.

Lemma X2_witness :
  filter_excluded_files diff_go_svg (strs [lit ".png"; lit ".svg"]) =
  filter_excluded_files diff_go_svg (strs [lit ".svg"; lit ".png"; lit ".svg"]).
Proof.
  apply (X2_policy_is_a_set diff_go_svg [lit ".png"; lit ".svg"]
           [lit ".svg"; lit ".png"; lit ".svg"]).
  intros x. simpl. tauto.
Defined.

(** X3. With an empty suffix list nothing is dropped: a text that is not blank
    comes back as its lines joined by newlines with one newline appended, and a
    text whose lines each end in a newline comes back unchanged. *)
Theorem X3_empty_policy_keeps_every_line :
  forall D : str,
    (strip D <> [] ->
     filter_excluded_files D [] = Ok (join [LF] (splitlines D) ++ [LF])) /\
    (forall lines, D = terminated lines -> Forall break_free lines ->
                   filter_excluded_files D [] = Ok D).
Proof.
  intros D. change (@nil pyobj) with (strs []). split.
  - intros H. rewrite filter_strs, kept_lines_no_policy.
    destruct (forallb is_space D) eqn:B; [|reflexivity].
    apply strip_nil_iff in B. contradiction.
  - intros lines -> Hbf. rewrite filter_strs.
    destruct (forallb is_space (terminated lines)) eqn:B; [reflexivity|].
    rewrite kept_lines_no_policy, (splitlines_terminated lines Hbf).
    rewrite join_terminated; [reflexivity|].
    intros E. rewrite E in B. discriminate.
Qed.

(** X4. The output for an input that is not blank ends with a newline, and a
    newline is the only line break in it: carriage returns and the other line
    breaks of the input are gone. *)
Theorem X4_output_breaks_are_newlines :
  forall (D : str) (S : list str) (out : str),
    strip D <> [] ->
    filter_excluded_files D (strs S) = Ok out ->
    (exists body, out = body ++ [LF]) /\
    (forall c, In c out -> is_linebreak c = true -> c = LF).
Proof.
  intros D S out Hnb. rewrite filter_strs.
  destruct (forallb is_space D) eqn:B;
    [apply strip_nil_iff in B; contradiction|].
  intros [= <-]. split; [eexists; reflexivity|].
  intros c Hc Hbr. apply in_app_or in Hc as [Hc | [<- | []]]; [|reflexivity].
  apply in_join in Hc as [[<- | []] | (l & Hl & Hc)]; [reflexivity|].
  exfalso.
  assert (Hbf : Forall break_free (kept_lines S (splitlines D)))
    by apply kept_lines_break_free, splitlines_break_free.
  rewrite Forall_forall in Hbf. specialize (Hbf l Hl).
  unfold break_free in Hbf. rewrite Forall_forall in Hbf.
  specialize (Hbf c Hc). congruence.
Qed.

Lemma X4_witness :
  filter_excluded_files (lit "diff --git a/x b/x" ++ [CR; LF] ++ lit "+1" ++ [CR])
                        (strs [lit ".png"]) =
    Ok (text ["diff --git a/x b/x"; "+1"]%string) /\
  forall c, In c (text ["diff --git a/x b/x"; "+1"]%string) ->
            is_linebreak c = true -> c = LF.
Proof.
  assert (E : filter_excluded_files
                (lit "diff --git a/x b/x" ++ [CR; LF] ++ lit "+1" ++ [CR])
                (strs [lit ".png"]) =
              Ok (text ["diff --git a/x b/x"; "+1"]%string)) by reflexivity.
  split; [exact E|].
  apply (X4_output_breaks_are_newlines
           (lit "diff --git a/x b/x" ++ [CR; LF] ++ lit "+1" ++ [CR])
           [lit ".png"] _ ltac:(vm_compute; discriminate) E).
Defined.



(** X6. A tuple of strings in the suffix list counts as those strings listed
    in its place, whatever follows it in the list. *)
Theorem X6_tuple_entry_is_its_strings :
  forall (D : str) (T : list str) (rest : list pyobj),
    filter_excluded_files D (PyTuple (strs T) :: rest) =
    filter_excluded_files D (strs T ++ rest).
Proof.
  intros D T rest. apply filter_ext_policy. intros line.
  rewrite !header_skip_unfold. now rewrite ext_loop_tuple.
Qed.

(** X7. A text returned by the filter is at most one code point longer than
    the input. *)
Theorem X7_output_length_bound :
  forall (D : str) (S : list str) (out : str),
    filter_excluded_files D (strs S) = Ok out ->
    length out <= length D + 1.
Proof.
  intros D S out. rewrite filter_strs.
  destruct (forallb is_space D); intros [= <-]; [lia|].
  pose proof (kept_lines_subseq S (splitlines D)) as Hsub.
  apply terminated_length_subseq in Hsub.
  pose proof (splitlines_from_length D []) as Hlen. fold (splitlines D) in Hlen.
  destruct (kept_lines S (splitlines D)) as [|l K] eqn:E.
  - simpl. lia.
  - rewrite join_terminated by discriminate. simpl in Hlen. lia.
Qed.

Lemma X7_witness :
  filter_excluded_files (lit "hello") (strs [lit ".png"]) = Ok (lit "hello" ++ [LF]) /\
  length (lit "hello" ++ [LF]) <= length (lit "hello") + 1.
Proof.
  split; [reflexivity|].
  apply (X7_output_length_bound (lit "hello") [lit ".png"] (lit "hello" ++ [LF])).
  reflexivity.
Defined.

(* ================================================================== *)
(** ** The pull-request URL                                            *)
(* ================================================================== *)

Section PrUrlFacts.

Variable digit : char -> bool.

Lemma strip_prefix_iff (p s rest : str) :
  strip_prefix p s = Some rest <-> s = p ++ rest.
Proof.
  revert s. induction p as [|x p IH]; intros s; simpl.
  - split; [intros [= ->] | intros ->]; reflexivity.
  - destruct s as [|c s]; [split; discriminate|].
    destruct (N.eqb c x) eqn:E.
    + apply N.eqb_eq in E. subst c. rewrite IH. split; [intros -> | intros [= ->]]; reflexivity.
    + apply N.eqb_neq in E. split; [discriminate | intros [= -> _]; congruence].
Qed.

Lemma span_parts (f : char -> bool) (s : str) :
  s = fst (span f s) ++ snd (span f s) /\
  forallb f (fst (span f s)) = true /\
  stops f (snd (span f s)).
Proof.
  induction s as [|c s (IH1 & IH2 & IH3)]; simpl; [now repeat split|].
  destruct (f c) eqn:E.
  - destruct (span f s) as [run tail]. simpl in *.
    rewrite E, IH2. repeat split; [now f_equal | exact IH3].
  - simpl. repeat split. exact E.
Qed.

Lemma span_run (f : char -> bool) (run tail : str) :
  forallb f run = true -> stops f tail -> span f (run ++ tail) = (run, tail).
Proof.
  induction run as [|c run IH]; simpl.
  - intros _ H. destruct tail as [|c t]; [reflexivity|]. simpl in *. now rewrite H.
  - intros H Ht. apply andb_true_iff in H as [Hc Hr].
    now rewrite Hc, (IH Hr Ht).
Qed.

Lemma span_more (f : char -> bool) (run tail : str) :
  forallb f run = true ->
  span f (run ++ tail) = (run ++ fst (span f tail), snd (span f tail)).
Proof.
  induction run as [|c run IH]; simpl.
  - intros _. now destruct (span f tail).
  - intros H. apply andb_true_iff in H as [Hc Hr]. now rewrite Hc, (IH Hr).
Qed.

(** After a run of non-slashes a slash, or nothing, follows. *)
Lemma slash_stops (tail : str) : stops not_slash (lit "/" ++ tail).
Proof. reflexivity. Qed.

Lemma match_pr_at_complete (s owner repo pr tail : str) :
  pr_match digit s owner repo pr tail -> stops digit tail ->
  match_pr_at digit s = Some (owner, repo, pr).
Proof.
  intros (-> & Ho & Hos & Hr & Hrs & Hp & Hps) Hstop.
  unfold match_pr_at.
  rewrite (proj2 (strip_prefix_iff (lit "github.com/") _ _) eq_refl).
  rewrite (span_run not_slash owner _ Hos (slash_stops _)).
  destruct owner as [|o owner]; [congruence|]. simpl is_empty. cbv iota.
  rewrite (proj2 (strip_prefix_iff (lit "/") _ _) eq_refl).
  change (lit "/pull/" ++ pr ++ tail) with (lit "/" ++ (lit "pull/" ++ pr ++ tail)).
  rewrite (span_run not_slash repo _ Hrs (slash_stops _)).
  destruct repo as [|r repo]; [congruence|]. simpl is_empty. cbv iota.
  change (lit "/" ++ lit "pull/" ++ pr ++ tail) with (lit "/pull/" ++ pr ++ tail).
  rewrite (proj2 (strip_prefix_iff (lit "/pull/") _ _) eq_refl).
  rewrite (span_run digit pr tail Hps Hstop).
  destruct pr; [congruence | reflexivity].
Qed.

Lemma match_pr_at_sound (s owner repo pr : str) :
  match_pr_at digit s = Some (owner, repo, pr) ->
  exists tail, pr_match digit s owner repo pr tail /\ stops digit tail.
Proof.
  unfold match_pr_at.
  destruct (strip_prefix (lit "github.com/") s) as [s1|] eqn:E1; [|discriminate].
  apply strip_prefix_iff in E1.
  destruct (span_parts not_slash s1) as (P1 & Q1 & _).
  destruct (span not_slash s1) as [o s2]. simpl in P1, Q1.
  destruct o as [|o0 o]; [discriminate|]. simpl is_empty. cbv iota.
  destruct (strip_prefix (lit "/") s2) as [s3|] eqn:E2; [|discriminate].
  apply strip_prefix_iff in E2.
  destruct (span_parts not_slash s3) as (P2 & Q2 & _).
  destruct (span not_slash s3) as [r s4]. simpl in P2, Q2.
  destruct r as [|r0 r]; [discriminate|]. simpl is_empty. cbv iota.
  destruct (strip_prefix (lit "/pull/") s4) as [s5|] eqn:E3; [|discriminate].
  apply strip_prefix_iff in E3.
  destruct (span_parts digit s5) as (P3 & Q3 & R3).
  destruct (span digit s5) as [p tail]. simpl in P3, Q3, R3.
  destruct p as [|p0 p]; [discriminate|]. simpl is_empty. cbv iota.
  intros [= <- <- <-]. exists tail. split; [|exact R3].
  unfold pr_match. repeat split; try discriminate; try assumption.
  rewrite E1, P1, E2, P2, E3, P3. reflexivity.
Qed.

(** Where the backtracking matcher of [re] finds a match, the groups are
    the greedy ones. *)
Lemma match_pr_at_any (s owner repo pr tail : str) :
  pr_match digit s owner repo pr tail ->
  match_pr_at digit s =
    Some (owner, repo, pr ++ fst (span digit tail)).
Proof.
  intros (-> & Ho & Hos & Hr & Hrs & Hp & Hps).
  destruct (span_parts digit tail) as (P & Q & R).
  apply (match_pr_at_complete _ owner repo (pr ++ fst (span digit tail))
           (snd (span digit tail))); [|exact R].
  unfold pr_match. repeat split; try assumption.
  - rewrite <- !app_assoc. now rewrite <- P.
  - destruct pr; [congruence | discriminate].
  - rewrite forallb_app. now rewrite Hps, Q.
Qed.

Lemma match_pr_at_prefix (s : str) (g : str * str * str) :
  match_pr_at digit s = Some g -> startswith s (lit "github.com/") = true.
Proof.
  destruct g as [[o r] p]. intros H.
  apply match_pr_at_sound in H as (tail & (-> & _) & _).
  apply startswith_app.
Qed.

Lemma re_search_pr_unfold (s : str) :
  re_search_pr digit s =
  match match_pr_at digit s with
  | Some groups => Some groups
  | None => match s with [] => None | _ :: rest => re_search_pr digit rest end
  end.
Proof. destruct s; reflexivity. Qed.

Lemma re_search_pr_absent (s : str) :
  contains (lit "github.com/") s = false -> re_search_pr digit s = None.
Proof.
  induction s as [|c s IH]; rewrite contains_unfold, re_search_pr_unfold;
    intros H; apply orb_false_iff in H as [H1 H2].
  - destruct (match_pr_at digit []) eqn:E; [|reflexivity].
    apply match_pr_at_prefix in E. congruence.
  - destruct (match_pr_at digit (c :: s)) eqn:E.
    + apply match_pr_at_prefix in E. congruence.
    + now apply IH.
Qed.

Lemma re_search_pr_skip (front s : str) :
  Forall (fun c => c <> 103%N) front ->
  re_search_pr digit (front ++ s) = re_search_pr digit s.
Proof.
  induction 1 as [|c front Hc _ IH]; [reflexivity|].
  simpl app. rewrite re_search_pr_unfold.
  match goal with
  | |- match match_pr_at digit ?x with _ => _ end = _ =>
      destruct (match_pr_at digit x) eqn:E; [|exact IH]
  end.
  apply match_pr_at_prefix in E. simpl in E.
  apply andb_true_iff in E as [E _]. apply N.eqb_eq in E. contradiction.
Qed.

(** The match found is at the leftmost position that has one. *)
Lemma re_search_pr_leftmost (s : str) (g : str * str * str) :
  re_search_pr digit s = Some g <->
  exists front rest,
    s = front ++ rest /\ match_pr_at digit rest = Some g /\
    forall front' rest', s = front' ++ rest' -> length front' < length front ->
                         match_pr_at digit rest' = None.
Proof.
  induction s as [|c s IH]; rewrite re_search_pr_unfold.
  - destruct (match_pr_at digit []) eqn:E.
    + apply match_pr_at_prefix in E. discriminate.
    + split; [discriminate|]. intros (front & rest & Hs & Hm & _).
      symmetry in Hs. apply app_eq_nil in Hs as [_ ->]. congruence.
  - destruct (match_pr_at digit (c :: s)) as [g'|] eqn:E.
    + split.
      * intros [= ->]. exists [], (c :: s). repeat split; [exact E|].
        intros front' rest' _ Hl. simpl in Hl. lia.
      * intros (front & rest & Hs & Hm & Hleft). destruct front as [|c' front].
        -- simpl in Hs. subst rest. congruence.
        -- specialize (Hleft [] (c :: s) eq_refl ltac:(simpl; lia)). congruence.
    + rewrite IH. split.
      * intros (front & rest & -> & Hm & Hleft).
        exists (c :: front), rest. repeat split; [exact Hm|].
        intros front' rest' Hs Hl. destruct front' as [|c' front'].
        -- simpl in Hs. subst rest'. exact E.
        -- injection Hs as -> Hs. apply (Hleft front' rest' Hs). simpl in Hl. lia.
      * intros (front & rest & Hs & Hm & Hleft). destruct front as [|c' front].
        -- simpl in Hs. subst rest. congruence.
        -- injection Hs as -> ->. exists front, rest. repeat split; [exact Hm|].
           intros front' rest' Hs Hl.
           apply (Hleft (c' :: front') rest'); [now rewrite Hs | simpl; lia].
Qed.

End PrUrlFacts.

(** X8. The groups of the pattern of line 72: [re_search_pr] returns owner,
    repo and number exactly when the URL holds [github.com/owner/repo/pull/number]
    with owner and repo non-empty and free of slashes and the number a
    non-empty run of digits that no digit follows, at the leftmost place where
    the pattern matches at all. *)
Theorem X8_pr_pattern_groups :
  forall (digit : char -> bool) (url owner repo pr : str),
    re_search_pr digit url = Some (owner, repo, pr) <->
    exists front rest tail,
      url = front ++ rest /\
      pr_match digit rest owner repo pr tail /\ stops digit tail /\
      forall front' rest' o r p t,
        url = front' ++ rest' -> length front' < length front ->
        ~ pr_match digit rest' o r p t.
Proof.
  intros digit url owner repo pr. rewrite re_search_pr_leftmost. split.
  - intros (front & rest & Hs & Hm & Hleft).
    apply match_pr_at_sound in Hm as (tail & Hm & Hstop).
    exists front, rest, tail.
    split; [exact Hs | split; [exact Hm | split; [exact Hstop|]]].
    intros front' rest' o r p t Hs' Hl Hm'.
    apply match_pr_at_any in Hm'. rewrite (Hleft front' rest' Hs' Hl) in Hm'.
    discriminate.
  - intros (front & rest & tail & Hs & Hm & Hstop & Hleft).
    exists front, rest.
    split; [exact Hs | split;
      [now apply (match_pr_at_complete digit rest owner repo pr tail) |]].
    intros front' rest' Hs' Hl.
    destruct (match_pr_at digit rest') as [[[o r] p]|] eqn:E; [|reflexivity].
    apply match_pr_at_sound in E as (t & E & _).
    exfalso. exact (Hleft front' rest' o r p t Hs' Hl E).
Qed.

(** X9. For a URL that reads [github.com/owner/repo/pull/number] after a
    front without the letter g, such as [https://], the diff is requested from
    [https://api.github.com/repos/owner/repo/pulls/number]; the text of the
    response is returned, and a failed request gives the empty text and one
    printed line. *)
Theorem X9_pr_url_to_api_url :
  forall (w : world) (front rest owner repo pr tail : str),
    Forall (fun c => c <> 103%N) front ->
    pr_match (unicode_decimal w) rest owner repo pr tail ->
    stops (unicode_decimal w) tail ->
    get_github_pr_diff w (front ++ rest) =
    match requests_get w (pr_api_url owner repo pr) (pr_headers w) with
    | HttpText body => ([], Some body)
    | HttpException e =>
        ([(Stdout, lit "Error fetching PR diff from " ++ pr_api_url owner repo pr
                   ++ lit ": " ++ e)], Some [])
    end.
Proof.
  intros w front rest owner repo pr tail Hfront Hm Hstop.
  unfold get_github_pr_diff.
  rewrite (re_search_pr_skip (unicode_decimal w) front rest Hfront).
  rewrite re_search_pr_unfold.
  rewrite (match_pr_at_complete (unicode_decimal w) rest owner repo pr tail Hm Hstop).
  now destruct (requests_get w (pr_api_url owner repo pr) (pr_headers w)).
Qed.

Lemma X9_witness :
  get_github_pr_diff
    (mkWorld (fun _ => ProcOtherError) (fun _ => Some (lit "t0k3n"))
             (fun api_url headers => HttpText (api_url ++ [LF] ++ snd (last headers ([], []))))
             (fun _ => None) ascii_digit)
    (lit "https://github.com/Kppro/AutoReviewBot/pull/12/files") =
  ([], Some (lit "https://api.github.com/repos/Kppro/AutoReviewBot/pulls/12"
             ++ [LF] ++ lit "token t0k3n")).
Proof.
  assert (Hf : Forall (fun c => c <> 103%N) (lit "https://"))
    by (repeat constructor; discriminate).
  assert (Hm : pr_match ascii_digit (lit "github.com/Kppro/AutoReviewBot/pull/12/files")
                 (lit "Kppro") (lit "AutoReviewBot") (lit "12") (lit "/files"))
    by (unfold pr_match; repeat split; discriminate).
  exact (X9_pr_url_to_api_url
           (mkWorld (fun _ => ProcOtherError) (fun _ => Some (lit "t0k3n"))
              (fun api_url headers => HttpText (api_url ++ [LF] ++ snd (last headers ([], []))))
              (fun _ => None) ascii_digit)
           (lit "https://") _ _ _ _ _ Hf Hm eq_refl).
Defined.

(** X10. A URL that does not hold [github.com/] is refused: one line is
    printed, the empty text is returned, and no request is made. *)
Theorem X10_url_without_github_is_refused :
  forall (w : world) (url : str),
    contains (lit "github.com/") url = false ->
    get_github_pr_diff w url = ([(Stdout, lit "Invalid PR URL: " ++ url)], Some []).
Proof.
  intros w url H. unfold get_github_pr_diff.
  now rewrite (re_search_pr_absent (unicode_decimal w) url H).
Qed.

Lemma X10_witness :
  get_github_pr_diff (sample_world [] []) (lit "https://gitlab.com/a/b/pull/1") =
  ([(Stdout, lit "Invalid PR URL: https://gitlab.com/a/b/pull/1")], Some []).
Proof.
  apply (X10_url_without_github_is_refused (sample_world [] [])
           (lit "https://gitlab.com/a/b/pull/1")).
  reflexivity.
Defined.

(* ================================================================== *)
(** ** The whole run                                                   *)
(* ================================================================== *)

Section MainFacts.

Lemma contains_lstrip (a : char) (needle s : str) :
  is_space a = false ->
  contains (a :: needle) (lstrip s) = contains (a :: needle) s.
Proof.
  intros Ha. induction s as [|c s IH]; [reflexivity|].
  simpl lstrip. destruct (is_space c) eqn:E; [|reflexivity].
  rewrite IH. rewrite (contains_unfold (a :: needle) (c :: s)).
  simpl startswith.
  destruct (N.eqb c a) eqn:Eq; [|reflexivity].
  apply N.eqb_eq in Eq. congruence.
Qed.

Lemma contains_rev (needle s : str) :
  contains (rev needle) (rev s) = contains needle s.
Proof.
  apply eq_true_iff_eq. rewrite !contains_iff. split.
  - intros (pre & post & H). exists (rev post), (rev pre).
    apply (f_equal (@rev char)) in H.
    rewrite rev_involutive, !rev_app_distr, rev_involutive in H.
    now rewrite H, app_assoc.
  - intros (pre & post & ->). exists (rev post), (rev pre).
    now rewrite !rev_app_distr, app_assoc.
Qed.

(** Stripping a text does not touch a word in it. *)
Lemma contains_strip (a b : char) (needle middle s : str) :
  needle = a :: middle -> rev needle = b :: rev (removelast needle) ->
  is_space a = false -> is_space b = false ->
  contains needle (strip s) = contains needle s.
Proof.
  intros Hn Hr Ha Hb. unfold strip, rstrip.
  rewrite <- (rev_involutive needle) at 1. rewrite contains_rev.
  rewrite Hr, (contains_lstrip b _ _ Hb), <- Hr, contains_rev.
  rewrite Hn. now apply contains_lstrip.
Qed.

Lemma approved_survives_strip (s : str) :
  contains (lit "APPROVED") (strip s) = contains (lit "APPROVED") s.
Proof.
  apply (contains_strip 65%N 68%N (lit "APPROVED") (lit "PPROVED")); reflexivity.
Qed.

(** The words [Error calling OpenAI API: ] neither hold nor begin
    [APPROVED]. *)
Lemma approved_after_error_prefix (e : str) :
  contains (lit "APPROVED") (lit "Error calling OpenAI API: " ++ e) =
  contains (lit "APPROVED") e.
Proof.
  unfold lit. simpl app.
  repeat (rewrite contains_unfold; simpl startswith; rewrite ?orb_false_l).
  reflexivity.
Qed.

Lemma feedback_approved (answer : chat_outcome) :
  (if contains (lit "APPROVED") (chat_feedback answer) then 0%Z else 1%Z)
  = exit_code_of answer.
Proof.
  destruct answer as [[content|]|e]; unfold chat_feedback, exit_code_of.
  - now rewrite approved_survives_strip.
  - reflexivity.
  - now rewrite approved_after_error_prefix.
Qed.

Lemma main_unfold (w : world) (args : cli_args)
      (log : list (stream * str)) (D context : str) :
  acquire_diff w args = (log, Some (D, context)) ->
  main w args = (log ++ printed (review_and_exit w D context),
                 returned (review_and_exit w D context)).
Proof. intros H. unfold main, io_bind. rewrite H. reflexivity. Qed.

Lemma filter_builtin (D : str) :
  filter_excluded_files D EXCLUDED_EXTENSIONS =
  Ok (if forallb is_space D then D
      else join [LF] (kept_lines EXCLUDED_SUFFIXES (splitlines D)) ++ [LF]).
Proof. exact (filter_strs EXCLUDED_SUFFIXES D). Qed.

Lemma review_of_blank (w : world) (D context filtered : str) :
  filter_excluded_files D EXCLUDED_EXTENSIONS = Ok filtered ->
  strip filtered = [] ->
  review_and_exit w D context =
  ([(Stdout, lit "No diff found (after filtering). Exiting.")], Some 0%Z).
Proof.
  intros Hf Hb. unfold review_and_exit. rewrite Hf, Hb. reflexivity.
Qed.

Lemma review_of_text (w : world) (D context filtered : str) :
  filter_excluded_files D EXCLUDED_EXTENSIONS = Ok filtered ->
  strip filtered <> [] ->
  review_and_exit w D context =
  match OpenAI w (getenv w (lit "OPENAI_API_KEY")) with
  | None => ([(Stdout, lit "Analyzing with OpenAI, please wait...")], None)
  | Some create =>
      let feedback := reviewer_of create filtered context in
      ([(Stdout, lit "Analyzing with OpenAI, please wait...");
        (Stdout, LF :: lit "----- AI REVIEW START -----");
        (Stdout, feedback);
        (Stdout, lit "----- AI REVIEW END -----" ++ [LF]);
        (Stdout, if contains (lit "APPROVED") feedback
                 then lit "AI review result: APPROVED. Proceeding with the commit."
                 else lit "AI review result: Not approved. Aborting the commit.")],
       Some (if contains (lit "APPROVED") feedback then 0%Z else 1%Z))
  end.
Proof.
  intros Hf Hb. unfold review_and_exit, call_openai_api. rewrite Hf.
  destruct (strip filtered) eqn:E; [congruence|]. simpl is_empty. cbv iota.
  destruct (OpenAI w (getenv w (lit "OPENAI_API_KEY"))) as [create|]; [|reflexivity].
  cbv zeta. fold (reviewer_of create filtered context).
  unfold io_bind. simpl.
  now destruct (contains (lit "APPROVED") (reviewer_of create filtered context)).
Qed.

Lemma acquire_diff_fails (w : world) (args : cli_args) :
  diff_source_fails w args ->
  exists log context, acquire_diff w args = (log, Some ([], context)).
Proof.
  unfold diff_source_fails, acquire_diff, get_github_pr_diff, get_local_diff.
  destruct (url args) as [[|c u]|].
  - intros [e H]. destruct (pre_commit args); rewrite H; do 2 eexists; reflexivity.
  - destruct (re_search_pr (unicode_decimal w) (c :: u)) as [[[o r] p]|].
    + intros [e H]. rewrite H. do 2 eexists; reflexivity.
    + intros _. do 2 eexists; reflexivity.
  - intros [e H]. destruct (pre_commit args); rewrite H; do 2 eexists; reflexivity.
Qed.


End MainFacts.

Lemma drop_all_excluded (S : list str) (chunks : list (list str)) :
  forallb (fun c => excluded_by_policy (chunk_header c) S) chunks = true ->
  filter (chunk_kept S) chunks = [].
Proof.
  induction chunks as [|c chunks IH]; [reflexivity|]. simpl.
  intros H. apply andb_true_iff in H as [Hc Hr].
  unfold chunk_kept at 1. rewrite Hc. simpl. now apply IH.
Qed.

(** X11. When the diff source fails (the URL is refused, the request raises,
    or [git diff] exits with an error), [main] reports that there is no diff
    and exits with code 0, without calling the reviewer. *)
Theorem X11_no_diff_exits_zero :
  forall (w : world) (args : cli_args),
    diff_source_fails w args ->
    returned (main w args) = Some 0%Z /\
    exists log,
      printed (main w args) =
      log ++ [(Stdout, lit "No diff found (after filtering). Exiting.")].
Proof.
  intros w args H. apply acquire_diff_fails in H as (log & context & H).
  rewrite (main_unfold w args log [] context H).
  rewrite (review_of_blank w [] context [] eq_refl eq_refl).
  split; [reflexivity | now exists log].
Qed.

Lemma X11_witness :
  returned (main (sample_world [] []) (mkArgs None false)) = Some 0%Z.
Proof.
  apply (X11_no_diff_exits_zero (sample_world [] []) (mkArgs None false)).
  exists (lit "exit status 128"). reflexivity.
Defined.

(** X12. When the diff begins with a header line and every chunk of it is
    excluded by the built-in suffix list, [main] reports that there is no diff
    and exits with code 0, without calling the reviewer. *)
Theorem X12_only_excluded_files_exits_zero :
  forall (w : world) (args : cli_args) (log : list (stream * str))
         (D context first : str) (rest : list str),
    acquire_diff w args = (log, Some (D, context)) ->
    splitlines D = first :: rest ->
    is_header first = true ->
    forallb (fun c => excluded_by_policy (chunk_header c) EXCLUDED_SUFFIXES)
            (chunks_of (splitlines D)) = true ->
    main w args =
      (log ++ [(Stdout, lit "No diff found (after filtering). Exiting.")], Some 0%Z).
Proof.
  intros w args log D context first rest Ha Hs Hh Hall.
  rewrite (main_unfold w args log D context Ha).
  rewrite (review_of_blank w D context [LF]); [reflexivity | | reflexivity].
  rewrite filter_builtin, (header_first_not_blank D first rest Hs Hh).
  unfold kept_lines. rewrite (drop_all_excluded _ _ Hall).
  rewrite Hs, (preamble_of_header first rest Hh). reflexivity.
Qed.

Lemma X12_witness :
  main (sample_world diff_images (lit "APPROVED")) (mkArgs None true) =
  ([(Stdout, lit "No diff found (after filtering). Exiting.")], Some 0%Z).
Proof.
  exact (X12_only_excluded_files_exits_zero
           (sample_world diff_images (lit "APPROVED")) (mkArgs None true)
           [] diff_images (lit "Staged changes (pre-commit)")
           (lit "diff --git a/logo.png b/logo.png")
           (map lit ["+1"; "diff --git a/icon.svg b/icon.svg"; "+2"]%string)
           eq_refl eq_refl eq_refl eq_refl).
Defined.


(** X14. Once the diff is read and the client of the reviewer is built, [main]
    prints what the decision layer [main_decide] prints and exits with its
    code, the reviewer being the call of lines 175-189. *)
Theorem X14_main_runs_the_decision_layer :
  forall (w : world) (args : cli_args) (create : str -> str -> chat_outcome)
         (log : list (stream * str)) (D context : str),
    acquire_diff w args = (log, Some (D, context)) ->
    OpenAI w (getenv w (lit "OPENAI_API_KEY")) = Some create ->
    exists lines code,
      main_decide (reviewer_of create) D context = Ok (lines, code) /\
      main w args = (log ++ map (pair Stdout) lines, Some code).
Proof.
  intros w args create log D context Ha Hc.
  rewrite (main_unfold w args log D context Ha).
  pose proof (filter_builtin D) as Hf.
  set (filtered := if forallb is_space D then D else _) in Hf.
  unfold main_decide. rewrite Hf. simpl bind.
  destruct (strip filtered) eqn:E.
  - rewrite (review_of_blank w D context filtered Hf E).
    do 2 eexists. split; reflexivity.
  - assert (Hnb : strip filtered <> []) by (rewrite E; discriminate).
    rewrite (review_of_text w D context filtered Hf Hnb), Hc. cbv zeta.
    simpl is_empty. cbv iota.
    destruct (contains (lit "APPROVED") (reviewer_of create filtered context));
      do 2 eexists; split; reflexivity.
Qed.

Lemma X14_witness :
  main_decide (reviewer_of (fun _ _ => ChatContent (Some (lit "Looks wrong."))))
              diff_source (lit "Staged changes (pre-commit)") =
    Ok ([lit "Analyzing with OpenAI, please wait...";
         LF :: lit "----- AI REVIEW START -----";
         lit "Looks wrong.";
         lit "----- AI REVIEW END -----" ++ [LF];
         lit "AI review result: Not approved. Aborting the commit."], 1%Z) /\
  returned (main (sample_world diff_source (lit "Looks wrong.")) (mkArgs None true))
    = Some 1%Z.
Proof.
  destruct (X14_main_runs_the_decision_layer
              (sample_world diff_source (lit "Looks wrong.")) (mkArgs None true)
              (fun _ _ => ChatContent (Some (lit "Looks wrong.")))
              [] diff_source (lit "Staged changes (pre-commit)")
              eq_refl eq_refl) as (lines & code & H1 & H2).
  split; [reflexivity | rewrite H2].
  vm_compute in H1. injection H1 as _ <-. reflexivity.
Defined.

(** X15. With a diff to review and a client, the exit code follows from what
    the reviewer gave: 0 exactly when the content, before it is stripped, or
    the text of the exception holds APPROVED; a missing content gives 1. *)
Theorem X15_exit_code_from_the_reviewer_outcome :
  forall (w : world) (args : cli_args) (create : str -> str -> chat_outcome)
         (log : list (stream * str)) (D context filtered : str),
    acquire_diff w args = (log, Some (D, context)) ->
    filter_excluded_files D EXCLUDED_EXTENSIONS = Ok filtered ->
    strip filtered <> [] ->
    OpenAI w (getenv w (lit "OPENAI_API_KEY")) = Some create ->
    returned (main w args) =
      Some (exit_code_of (create system_prompt (user_prompt filtered context))).
Proof.
  intros w args create log D context filtered Ha Hf Hnb Hc.
  rewrite (main_unfold w args log D context Ha).
  rewrite (review_of_text w D context filtered Hf Hnb), Hc. cbv zeta.
  unfold returned. simpl snd. unfold reviewer_of. now rewrite feedback_approved.
Qed.

Lemma X15_witness :
  returned (main (sample_world diff_source ([LF] ++ lit "  Fine. APPROVED " ++ [LF]))
                 (mkArgs None true)) = Some 0%Z.
Proof.
  assert (Hnb : strip diff_source <> []) by (vm_compute; discriminate).
  exact (X15_exit_code_from_the_reviewer_outcome
           (sample_world diff_source ([LF] ++ lit "  Fine. APPROVED " ++ [LF]))
           (mkArgs None true)
           (fun _ _ => ChatContent (Some ([LF] ++ lit "  Fine. APPROVED " ++ [LF])))
           [] diff_source (lit "Staged changes (pre-commit)") diff_source
           eq_refl eq_refl Hnb eq_refl).
Defined.
